(** * traefik-analytics: the asynchronous ingestion pipeline

    A shallow embedding of [analytics.go] (package [traefik_analytics]) and
    of the [request_logs] table it inserts into.  Go packages become
    modules ([time], [http], [channel], [sql]); the goroutines of the plugin
    become step functions over one explicit system state [sys] that holds
    the shared channel, the monotonic clock, the rows inserted so far and
    the chronological trace of observable events. *)

From Stdlib Require Import ZArith.
From stdpp Require Import base gmap strings list.

Local Open Scope Z_scope.

(** ** Outcomes of a call: it returns, it suspends the goroutine, or it
    panics. *)
Inductive outcome (A : Type) : Type :=
| Done (a : A)
| Blocked
| Panic.
Arguments Done {A} a.
Arguments Blocked {A}.
Arguments Panic {A}.

(** ** Package [time]: instants and durations in nanoseconds.

    [Now] attaches the reading of the monotonic clock to the instant it
    returns, and [Since] subtracts such readings, so an instant is modelled
    by its reading.  A [Duration] is an int64: a difference that does not fit
    is replaced by the nearest bound. *)
Module time.
Definition Time := Z.
Definition Duration := Z.
Definition maxDuration : Duration := 2 ^ 63 - 1.
Definition minDuration : Duration := - 2 ^ 63.
Definition Second : Duration := 1000000000.
Definition Now (clock : Z) : Time := clock.
Definition Since (clock : Z) (t : Time) : Duration :=
  Z.max minDuration (Z.min maxDuration (clock - t)).
End time.

(** ** Package [net/http]: the parts of a request and of a response writer
    that the plugin touches. *)
Module http.
Record URL := { Path : string }.

Record Request := {
  RemoteAddr : string;
  Header : gmap string (list string);
  Url : URL;
  Method : string;
  Proto : string;
  Host : string;
  ContentLength : Z
}.

(** [Header.Get]: the first value stored under the key, or the empty
    string.  The four keys the plugin asks for are already canonical. *)
Definition Get (h : gmap string (list string)) (key : string) : string :=
  match h !! key with
  | Some (v :: _) => v
  | _ => ""%string
  end.

Definition UserAgent (r : Request) : string := Get (Header r) "User-Agent".
Definition Referer (r : Request) : string := Get (Header r) "Referer".

Record ResponseWriter := {
  rw_header : gmap string (list string);
  rw_status : option Z;
  rw_body : string
}.

(** A handler runs against the clock, the response writer and the request
    it is handed by reference; it returns all three as it leaves them. *)
Definition Handler : Type :=
  Z -> ResponseWriter -> Request -> Z * ResponseWriter * Request.
End http.

(** ** [RequestData] (analytics.go, lines 88-101). *)
Record RequestData := {
  IP : string;
  UserAgent : string;
  Path : string;
  Time : time.Time;
  Method : string;
  Protocol : string;
  Host : string;
  AcceptLanguage : string;
  Referer : string;
  ContentType : string;
  ContentLength : Z;
  ResponseTime : time.Duration
}.

(** ** Buffered channels.

    [send] is the send case of a [select] that also has a [default]: it
    reports [SendWouldBlock] where a plain send would suspend.  [recv] is one
    iteration of [for v := range ch]. *)
Module channel.
Section Chan.
Context {A : Type}.

Record chan := { buf : list A; cap : nat; closed : bool }.

Definition make (n : nat) : chan :=
  {| buf := []; cap := n; closed := false |}.

Inductive send_result :=
| Sent (c : chan)
| SendWouldBlock
| SendPanic.

Definition send (c : chan) (v : A) : send_result :=
  if closed c then SendPanic
  else if (length (buf c) <? cap c)%nat
       then Sent {| buf := buf c ++ [v]; cap := cap c; closed := closed c |}
       else SendWouldBlock.

Inductive recv_result :=
| Received (v : A) (c : chan)
| RecvWouldBlock
| RecvClosed.

Definition recv (c : chan) : recv_result :=
  match buf c with
  | v :: rest => Received v {| buf := rest; cap := cap c; closed := closed c |}
  | [] => if closed c then RecvClosed else RecvWouldBlock
  end.
End Chan.
Arguments chan A : clear implicits.
Arguments send_result A : clear implicits.
Arguments recv_result A : clear implicits.
End channel.

(** ** Package [database/sql] and the [request_logs] table. *)
Module sql.
(** The Go values handed to [stmt.Exec], by their static type. *)
Inductive arg :=
| VString (s : string)
| VTime (t : time.Time)
| VInt64 (n : Z)
| VDuration (d : time.Duration).

(** [INSERT INTO into (columns) VALUES ($k, ...)]. *)
Record insert := {
  into : string;
  columns : list string;
  values : list nat
}.

Definition row : Type := list (string * arg).

(** Placeholder [$k] stands for the k-th argument, counted from one. *)
Definition placeholder (args : list arg) (k : nat) : option arg :=
  match k with
  | O => None
  | S i => args !! i
  end.

Fixpoint bind (cols : list string) (vals : list nat) (args : list arg)
  : option row :=
  match cols, vals with
  | [], [] => Some []
  | c :: cols', k :: vals' =>
      match placeholder args k, bind cols' vals' args with
      | Some a, Some r => Some ((c, a) :: r)
      | _, _ => None
      end
  | _, _ => None
  end.

(** What the sink reports back for one call. *)
Inductive failure_class := RowLevel | Connectivity.
Record failure := { class : failure_class; text : string }.

(** The table definition that ships with the plugin. *)
Inductive coltype :=
| SERIAL | INET | TEXT | TIMESTAMPTZ | VARCHAR (n : nat) | BIGINT | INTERVAL.
Record column := { col_name : string; col_type : coltype; not_null : bool }.

Definition request_logs : list column := [
  {| col_name := "id"; col_type := SERIAL; not_null := true |};
  {| col_name := "ip"; col_type := INET; not_null := true |};
  {| col_name := "user_agent"; col_type := TEXT; not_null := false |};
  {| col_name := "path"; col_type := TEXT; not_null := true |};
  {| col_name := "request_time"; col_type := TIMESTAMPTZ; not_null := true |};
  {| col_name := "method"; col_type := VARCHAR 10; not_null := true |};
  {| col_name := "protocol"; col_type := VARCHAR 10; not_null := true |};
  {| col_name := "host"; col_type := TEXT; not_null := true |};
  {| col_name := "accept_language"; col_type := TEXT; not_null := false |};
  {| col_name := "referer"; col_type := TEXT; not_null := false |};
  {| col_name := "content_type"; col_type := TEXT; not_null := false |};
  {| col_name := "content_length"; col_type := BIGINT; not_null := false |};
  {| col_name := "response_time"; col_type := INTERVAL; not_null := true |}
].
End sql.

(** ** Observable events, in the order they happen. *)
Inductive event :=
| EvGo (fn : string)
| EvNext
| EvLog (line : string)
| EvSleep (d : time.Duration)
| EvOpen (driver dsn : string)
| EvPing
| EvPrepare (q : sql.insert)
| EvExec (args : list sql.arg)
| EvStmtClose
| EvDbClose.

(** Events that reach the durable sink. *)
Definition storage_io (e : event) : bool :=
  match e with
  | EvOpen _ _ | EvPing | EvPrepare _ | EvExec _ | EvStmtClose | EvDbClose => true
  | _ => false
  end.

Definition is_next (e : event) : bool :=
  match e with EvNext => true | _ => false end.

Definition is_log (e : event) : bool :=
  match e with EvLog _ => true | _ => false end.

Definition is_open (e : event) : bool :=
  match e with EvOpen _ _ => true | _ => false end.

Definition is_sleep (e : event) : bool :=
  match e with EvSleep _ => true | _ => false end.

Definition is_close (e : event) : bool :=
  match e with EvStmtClose | EvDbClose => true | _ => false end.

Definition count (p : event -> bool) (tr : list event) : nat :=
  length (filter (fun e => p e = true) tr).

(** ** The plugin (analytics.go, lines 16-34). *)
Record Config := { DatabaseDSN : string }.

Definition CreateConfig : Config := {| DatabaseDSN := "" |}.

(** The [dataChan] field is a reference to the one channel made by [New];
    the channel itself lives in [sys], where both goroutines see it. *)
Record Analytics := {
  next : http.Handler;
  name : string;
  config : Config
}.

(** Where the worker goroutine stands: about to call [runWorker]; inside the
    [range] loop of [runWorker] with connection and statement open; or back
    in [processingWorker] holding the error [runWorker] returned. *)
Inductive wpc :=
| Connecting
| Draining
| Backoff (err : string).

Record sys := {
  clock : Z;
  dataChan : channel.chan RequestData;
  worker : wpc;
  sink : list sql.row;
  trace : list event
}.

(** ** [New] (lines 37-53). *)
Inductive new_result :=
| NewError (err : string)
| NewOk (a : Analytics) (s : sys)
| NewPanic.

Definition New (now : Z) (next : http.Handler) (config : option Config)
    (name : string) : new_result :=
  match config with
  | None => NewPanic
  | Some cfg =>
      if String.eqb (DatabaseDSN cfg) "" then NewError "DatabaseDSN is required"
      else NewOk {| next := next; name := name; config := cfg |}
                 {| clock := now;
                    dataChan := channel.make 1000;
                    worker := Connecting;
                    sink := [];
                    trace := [EvGo "processingWorker"] |}
  end.

(** ** [ServeHTTP] (lines 56-85). *)

(** Lines 63-76: the record is read off the request as the downstream handler
    left it. *)
Definition collect (req : http.Request) (start : time.Time) (clock : Z)
  : RequestData :=
  {| IP := http.RemoteAddr req;
     UserAgent := http.UserAgent req;
     Path := http.Path (http.Url req);
     Time := start;
     Method := http.Method req;
     Protocol := http.Proto req;
     Host := http.Host req;
     AcceptLanguage := http.Get (http.Header req) "Accept-Language";
     Referer := http.Referer req;
     ContentType := http.Get (http.Header req) "Content-Type";
     ContentLength := http.ContentLength req;
     ResponseTime := time.Since clock start |}.

(** Lines 79-84: the [select] with a send case and a [default]. *)
Definition offer (data : RequestData) (s : sys) : outcome sys :=
  match channel.send (dataChan s) data with
  | channel.Sent c =>
      Done {| clock := clock s; dataChan := c; worker := worker s;
              sink := sink s; trace := trace s |}
  | channel.SendWouldBlock =>
      Done {| clock := clock s; dataChan := dataChan s; worker := worker s;
              sink := sink s;
              trace := trace s ++
                [EvLog "Analytics channel full, discarding data"] |}
  | channel.SendPanic => Panic
  end.

(** The state in which the downstream handler returns. *)
Definition after_next (clock1 : Z) (s : sys) : sys :=
  {| clock := clock1; dataChan := dataChan s; worker := worker s;
     sink := sink s; trace := trace s ++ [EvNext] |}.

Definition ServeHTTP (a : Analytics) (rw : http.ResponseWriter)
    (req : http.Request) (s : sys)
  : outcome (sys * http.ResponseWriter * http.Request) :=
  let start := time.Now (clock s) in
  let '(clock1, rw1, req1) := next a (clock s) rw req in
  let data := collect req1 start clock1 in
  match offer data (after_next clock1 s) with
  | Done s' => Done (s', rw1, req1)
  | Blocked => Blocked
  | Panic => Panic
  end.

(** ** The worker goroutine (lines 104-151). *)

(** Lines 127-132. *)
Definition insert_stmt : sql.insert :=
  {| sql.into := "request_logs";
     sql.columns := ["ip"; "user_agent"; "path"; "request_time"; "method";
                     "protocol"; "host"; "accept_language"; "referer";
                     "content_type"; "content_length"; "response_time"];
     sql.values := [1; 2; 3; 4; 5; 6; 7; 8; 9; 10; 11; 12]%nat |}.

(** Lines 139-143. *)
Definition exec_args (data : RequestData) : list sql.arg :=
  [sql.VString (IP data); sql.VString (UserAgent data); sql.VString (Path data);
   sql.VTime (Time data); sql.VString (Method data);
   sql.VString (Protocol data); sql.VString (Host data);
   sql.VString (AcceptLanguage data); sql.VString (Referer data);
   sql.VString (ContentType data); sql.VInt64 (ContentLength data);
   sql.VDuration (ResponseTime data)].

(** What the sink answers to the calls of one worker step; [None] is
    success. *)
Record sink_reply := {
  on_open : option sql.failure;
  on_ping : option sql.failure;
  on_prepare : option sql.failure;
  on_exec : option sql.failure
}.

(** Lines 116-136: the events of one connection attempt and the error
    [runWorker] returns, if any.  [db.Close] is deferred once [sql.Open] has
    succeeded, [stmt.Close] once [db.Prepare] has. *)
Definition connect (dsn : string) (r : sink_reply) : list event * option string :=
  match on_open r with
  | Some e =>
      ([EvOpen "postgres" dsn],
       Some ("failed to connect to database: " +:+ sql.text e))
  | None =>
      match on_ping r with
      | Some e =>
          ([EvOpen "postgres" dsn; EvPing; EvDbClose],
           Some ("failed to ping database: " +:+ sql.text e))
      | None =>
          match on_prepare r with
          | Some e =>
              ([EvOpen "postgres" dsn; EvPing; EvPrepare insert_stmt; EvDbClose],
               Some ("failed to prepare statement: " +:+ sql.text e))
          | None =>
              ([EvOpen "postgres" dsn; EvPing; EvPrepare insert_stmt], None)
          end
      end
  end.

(** Lines 138-148: one iteration of the [range] loop on the record [data]. *)
Definition exec_events (data : RequestData) (r : sink_reply) : list event :=
  EvExec (exec_args data) ::
  match on_exec r with
  | Some e => [EvLog ("Failed to insert data: " +:+ sql.text e)]
  | None => []
  end.

Definition exec_rows (data : RequestData) (r : sink_reply) : list sql.row :=
  match on_exec r with
  | Some _ => []
  | None =>
      match sql.bind (sql.columns insert_stmt) (sql.values insert_stmt)
                     (exec_args data) with
      | Some row => [row]
      | None => []
      end
  end.

(** Lines 107-110: what [processingWorker] does with the error. *)
Definition backoff_events (err : string) : list event :=
  [EvLog ("Worker encountered an error: " +:+ err); EvSleep (5 * time.Second)].

(** One step of [processingWorker].  A successful [Exec] adds to the sink the
    row that binds each column of the statement to the argument of its
    placeholder. *)
Definition worker_step (a : Analytics) (r : sink_reply) (s : sys) : outcome sys :=
  match worker s with
  | Connecting =>
      let '(evs, res) := connect (DatabaseDSN (config a)) r in
      Done {| clock := clock s; dataChan := dataChan s;
              worker := match res with
                        | Some err => Backoff err
                        | None => Draining
                        end;
              sink := sink s; trace := trace s ++ evs |}
  | Backoff err =>
      Done {| clock := clock s + 5 * time.Second; dataChan := dataChan s;
              worker := Connecting; sink := sink s;
              trace := trace s ++ backoff_events err |}
  | Draining =>
      match channel.recv (dataChan s) with
      | channel.Received data c =>
          Done {| clock := clock s; dataChan := c; worker := Draining;
                  sink := sink s ++ exec_rows data r;
                  trace := trace s ++ exec_events data r |}
      | channel.RecvWouldBlock => Blocked
      | channel.RecvClosed =>
          Done {| clock := clock s; dataChan := dataChan s;
                  worker := Connecting; sink := sink s;
                  trace := trace s ++ [EvStmtClose; EvDbClose] |}
      end
  end.

(** A finite prefix of the worker's run, one sink reply per step. *)
Fixpoint worker_run (a : Analytics) (rs : list sink_reply) (s : sys) : outcome sys :=
  match rs with
  | [] => Done s
  | r :: rs' =>
      match worker_step a r s with
      | Done s' => worker_run a rs' s'
      | Blocked => Blocked
      | Panic => Panic
      end
  end.

(** ** The whole program: requests and worker steps in any interleaving.
    A worker parked on the empty channel leaves the state as it is while the
    requests go on. *)
Inductive action :=
| ActServe (rw : http.ResponseWriter) (req : http.Request)
| ActWorker (r : sink_reply).

Definition sys_step (a : Analytics) (act : action) (s : sys) : outcome sys :=
  match act with
  | ActServe rw req =>
      match ServeHTTP a rw req s with
      | Done (s', _, _) => Done s'
      | Blocked => Blocked
      | Panic => Panic
      end
  | ActWorker r =>
      match worker_step a r s with
      | Blocked => Done s
      | o => o
      end
  end.

Fixpoint sys_run (a : Analytics) (acts : list action) (s : sys) : outcome sys :=
  match acts with
  | [] => Done s
  | act :: acts' =>
      match sys_step a act s with
      | Done s' => sys_run a acts' s'
      | Blocked => Blocked
      | Panic => Panic
      end
  end.

Inductive reachable (a : Analytics) : sys -> Prop :=
| reach_new now s :
    New now (next a) (Some (config a)) (name a) = NewOk a s ->
    reachable a s
| reach_step act s s' :
    reachable a s -> sys_step a act s = Done s' -> reachable a s'.

(** ** A sample deployment: a downstream handler that answers 200 after
    12 ms, and a health-check request of unknown length. *)
Definition demo_next : http.Handler :=
  fun clock rw req =>
    (clock + 12000000,
     {| http.rw_header := http.rw_header rw;
        http.rw_status := Some 200;
        http.rw_body := "ok" |},
     req).

Definition demo_request : http.Request :=
  {| http.RemoteAddr := "10.0.0.7:51234";
     http.Header := {[ "User-Agent" := ["curl/8.5.0"] ]};
     http.Url := {| http.Path := "/health" |};
     http.Method := "GET";
     http.Proto := "HTTP/1.1";
     http.Host := "example.org";
     http.ContentLength := -1 |}.

Definition demo_writer : http.ResponseWriter :=
  {| http.rw_header := ∅; http.rw_status := None; http.rw_body := "" |}.

Definition demo_config : Config :=
  {| DatabaseDSN := "postgres://collector@db/analytics" |}.

Definition demo_analytics : Analytics :=
  {| next := demo_next; name := "analytics"; config := demo_config |}.

Definition demo_sys : sys :=
  {| clock := 0;
     dataChan := channel.make 1000;
     worker := Connecting;
     sink := [];
     trace := [EvGo "processingWorker"] |}.

Definition demo_record : RequestData :=
  {| IP := "10.0.0.7:51234"; UserAgent := "curl/8.5.0"; Path := "/health";
     Time := 0; Method := "GET"; Protocol := "HTTP/1.1";
     Host := "example.org"; AcceptLanguage := ""; Referer := "";
     ContentType := ""; ContentLength := -1; ResponseTime := 12000000 |}.

Definition reply_ok : sink_reply :=
  {| on_open := None; on_ping := None; on_prepare := None; on_exec := None |}.

(** ** Vocabulary for the worker's runs. *)

(** A connection attempt fails when any of its three calls does. *)
Definition connect_fails (r : sink_reply) : bool :=
  match on_open r, on_ping r, on_prepare r with
  | None, None, None => false
  | _, _, _ => true
  end.

(** The events of one trip round the loop of [processingWorker] that starts
    with a connection attempt that fails. *)
Definition round_events (dsn : string) (r : sink_reply) : list event :=
  (connect dsn r).1 ++
  match (connect dsn r).2 with
  | Some err => backoff_events err
  | None => []
  end.

(** Two worker steps per failed attempt: the attempt, then the backoff. *)
Definition attempts (rs : list sink_reply) : list sink_reply :=
  flat_map (fun r => [r; r]) rs.

(** The durations the worker slept for, in order. *)
Definition sleeps (tr : list event) : list time.Duration :=
  flat_map (fun e => match e with EvSleep d => [d] | _ => [] end) tr.

(** The state after some failed attempts, each followed by its backoff. *)
Definition backed_off (s : sys) (k : nat) (evs : list event) : sys :=
  {| clock := clock s + Z.of_nat k * (5 * time.Second);
     dataChan := dataChan s;
     worker := Connecting;
     sink := sink s;
     trace := trace s ++ evs |}.

(** A drain loop on a channel that somebody closed. *)
Definition closed_draining : sys :=
  {| clock := 0;
     dataChan := {| channel.buf := []; channel.cap := 1000;
                    channel.closed := true |};
     worker := Draining;
     sink := [];
     trace := [] |}.

(** The state after the drain loop has gone through some records. *)
Definition drained (s : sys) (rest : list RequestData) (rows : list sql.row)
    (evs : list event) : sys :=
  {| clock := clock s;
     dataChan := {| channel.buf := rest;
                    channel.cap := channel.cap (dataChan s);
                    channel.closed := channel.closed (dataChan s) |};
     worker := Draining;
     sink := sink s ++ rows;
     trace := trace s ++ evs |}.

(** The row of a record, column by column. *)
Definition row_of (data : RequestData) : sql.row :=
  [("ip", sql.VString (IP data));
   ("user_agent", sql.VString (UserAgent data));
   ("path", sql.VString (Path data));
   ("request_time", sql.VTime (Time data));
   ("method", sql.VString (Method data));
   ("protocol", sql.VString (Protocol data));
   ("host", sql.VString (Host data));
   ("accept_language", sql.VString (AcceptLanguage data));
   ("referer", sql.VString (Referer data));
   ("content_type", sql.VString (ContentType data));
   ("content_length", sql.VInt64 (ContentLength data));
   ("response_time", sql.VDuration (ResponseTime data))]%string.

Definition reply_exec_fails (cls : sql.failure_class) (msg : string) : sink_reply :=
  {| on_open := None; on_ping := None; on_prepare := None;
     on_exec := Some {| sql.class := cls; sql.text := msg |} |}.

Definition reply_no_route : sink_reply :=
  {| on_open := None;
     on_ping := Some {| sql.class := sql.Connectivity;
                        sql.text := "dial tcp: no route to host" |};
     on_prepare := None; on_exec := None |}.

(** The sample system once the worker has connected and one request has been
    served. *)
Definition demo_draining : sys :=
  {| clock := 12000000;
     dataChan := {| channel.buf := [demo_record]; channel.cap := 1000;
                    channel.closed := false |};
     worker := Draining;
     sink := [];
     trace := [EvGo "processingWorker";
               EvOpen "postgres" "postgres://collector@db/analytics";
               EvPing; EvPrepare insert_stmt; EvNext] |}.

(** The argument lists of the [Exec] calls in a trace, in order. *)
Definition exec_calls (tr : list event) : list (list sql.arg) :=
  flat_map (fun e => match e with EvExec args => [args] | _ => [] end) tr.

(** The sample system with the queue filled to capacity. *)
Definition demo_full : sys :=
  {| clock := 0;
     dataChan := {| channel.buf := replicate 1000 demo_record;
                    channel.cap := 1000; channel.closed := false |};
     worker := Draining;
     sink := [];
     trace := [] |}.

(** ** Vocabulary for whole-program invariants. *)

(** The line [ServeHTTP] logs when it discards a record (line 83). *)
Definition is_drop (e : event) : bool :=
  match e with
  | EvLog line => String.eqb line "Analytics channel full, discarding data"
  | _ => false
  end.

(** The lines of the worker: a failed insert (line 145) and a failed run
    (line 108). *)
Definition is_insert_failure (e : event) : bool :=
  match e with
  | EvLog line => String.prefix "Failed to insert data: " line
  | _ => false
  end.

Definition is_worker_error (e : event) : bool :=
  match e with
  | EvLog line => String.prefix "Worker encountered an error: " line
  | _ => false
  end.

Definition is_ping (e : event) : bool :=
  match e with EvPing => true | _ => false end.

Definition is_db_close (e : event) : bool :=
  match e with EvDbClose => true | _ => false end.

(** Connections the worker holds open, and attempts it has not yet slept
    on, by where it stands. *)
Definition connected (w : wpc) : nat :=
  match w with Draining => 1 | _ => 0 end.

Definition attempted (w : wpc) : nat :=
  match w with Connecting => 0 | _ => 1 end.

(** The requests in a schedule. *)
Fixpoint requests (acts : list action) : nat :=
  match acts with
  | [] => 0
  | ActServe _ _ :: acts' => S (requests acts')
  | ActWorker _ :: acts' => requests acts'
  end.

(** A schedule made of requests only. *)
Definition serve_all (reqs : list (http.ResponseWriter * http.Request))
  : list action :=
  map (fun p => ActServe p.1 p.2) reqs.

(** What holds of every state the program reaches: the requests served are
    the records executed, queued or discarded; the records executed are the
    rows stored or the inserts that failed; every row has the columns of the
    statement; the liveness checks made are the connections closed or the one
    in use; the attempts made are the sleeps taken or the one under way; each
    failed run is logged once and slept on once, for five seconds; and the
    queue is within its capacity. *)
Definition sys_inv (s : sys) : Prop :=
  count is_next (trace s) =
    (length (exec_calls (trace s)) + length (channel.buf (dataChan s)) +
     count is_drop (trace s))%nat /\
  length (exec_calls (trace s)) =
    (length (sink s) + count is_insert_failure (trace s))%nat /\
  Forall (fun row => map fst row = sql.columns insert_stmt) (sink s) /\
  count is_ping (trace s) =
    (count is_db_close (trace s) + connected (worker s))%nat /\
  count is_open (trace s) =
    (count is_sleep (trace s) + attempted (worker s))%nat /\
  count is_worker_error (trace s) = count is_sleep (trace s) /\
  Forall (fun d => d = 5 * time.Second) (sleeps (trace s)) /\
  (length (channel.buf (dataChan s)) <= channel.cap (dataChan s))%nat.

(** The records that have entered the queue, oldest first, as the argument
    lists of their [Exec] calls: those already executed, then those still
    held. *)
Definition pipeline (s : sys) : list (list sql.arg) :=
  exec_calls (trace s) ++ map exec_args (channel.buf (dataChan s)).

(** A day in the life of the sample deployment: the sink is unreachable at
    first; three requests are served; one insert fails. *)
Definition demo_schedule : list action :=
  [ActWorker reply_no_route;
   ActServe demo_writer demo_request;
   ActWorker reply_ok;
   ActWorker reply_ok;
   ActServe demo_writer demo_request;
   ActWorker (reply_exec_fails sql.RowLevel "invalid input syntax for type inet");
   ActWorker reply_ok;
   ActServe demo_writer demo_request].

(** The sample system during an outage: same clock and queue as
    [demo_sys], the worker holding the error of a failed run. *)
Definition demo_outage : sys :=
  {| clock := 0;
     dataChan := channel.make 1000;
     worker := Backoff "failed to ping database: dial tcp: no route to host";
     sink := [];
     trace := [EvGo "processingWorker";
               EvOpen "postgres" "postgres://collector@db/analytics";
               EvPing; EvDbClose] |}.

(** The sample system just connected, the queue empty. *)
Definition demo_idle : sys :=
  {| clock := 0;
     dataChan := channel.make 1000;
     worker := Draining;
     sink := [];
     trace := [EvGo "processingWorker";
               EvOpen "postgres" "postgres://collector@db/analytics";
               EvPing; EvPrepare insert_stmt] |}.

(** The sample system with one request served before the worker has made
    its first attempt. *)
Definition demo_queued : sys :=
  {| clock := 12000000;
     dataChan := {| channel.buf := [demo_record]; channel.cap := 1000;
                    channel.closed := false |};
     worker := Connecting;
     sink := [];
     trace := [EvGo "processingWorker"; EvNext] |}.

(** * Properties *)

(** ** The sample deployment, run *)

Example New_demo :
  New 0 demo_next (Some demo_config) "analytics" = NewOk demo_analytics demo_sys.
Proof. reflexivity. Qed.

Example New_default_config :
  New 0 demo_next (Some CreateConfig) "analytics" =
    NewError "DatabaseDSN is required".
Proof. reflexivity. Qed.

Example ServeHTTP_demo :
  ServeHTTP demo_analytics demo_writer demo_request demo_sys =
    Done ({| clock := 12000000;
             dataChan := {| channel.buf := [demo_record]; channel.cap := 1000;
                            channel.closed := false |};
             worker := Connecting; sink := [];
             trace := [EvGo "processingWorker"; EvNext] |},
          {| http.rw_header := ∅; http.rw_status := Some 200;
             http.rw_body := "ok" |},
          demo_request).
Proof. vm_compute. reflexivity. Qed.

Example ServeHTTP_demo_full :
  ServeHTTP demo_analytics demo_writer demo_request demo_full =
    Done ({| clock := 12000000; dataChan := dataChan demo_full;
             worker := Draining; sink := [];
             trace := [EvNext;
                       EvLog "Analytics channel full, discarding data"] |},
          {| http.rw_header := ∅; http.rw_status := Some 200;
             http.rw_body := "ok" |},
          demo_request).
Proof. vm_compute. reflexivity. Qed.

Example worker_demo :
  sys_run demo_analytics
    [ActWorker reply_ok; ActServe demo_writer demo_request; ActWorker reply_ok;
     ActWorker reply_ok] demo_sys =
    Done {| clock := 12000000; dataChan := channel.make 1000;
            worker := Draining; sink := [row_of demo_record];
            trace := [EvGo "processingWorker";
                      EvOpen "postgres" "postgres://collector@db/analytics";
                      EvPing; EvPrepare insert_stmt; EvNext;
                      EvExec (exec_args demo_record)] |}.
Proof. vm_compute. reflexivity. Qed.

Example worker_demo_outage :
  worker_run demo_analytics [reply_no_route; reply_ok; reply_ok] demo_sys =
    Done {| clock := 5000000000; dataChan := channel.make 1000;
            worker := Draining; sink := [];
            trace := [EvGo "processingWorker";
                      EvOpen "postgres" "postgres://collector@db/analytics";
                      EvPing; EvDbClose;
                      EvLog ("Worker encountered an error: " +:+
                             "failed to ping database: " +:+
                             "dial tcp: no route to host");
                      EvSleep 5000000000;
                      EvOpen "postgres" "postgres://collector@db/analytics";
                      EvPing; EvPrepare insert_stmt] |}.
Proof. vm_compute. reflexivity. Qed.

(** ** The channel *)
Section ChannelFacts.
Context {A : Type}.
Implicit Types (c : channel.chan A) (v : A).

Lemma send_open_room c v :
  channel.closed c = false ->
  (length (channel.buf c) < channel.cap c)%nat ->
  channel.send c v =
    channel.Sent {| channel.buf := channel.buf c ++ [v];
                    channel.cap := channel.cap c;
                    channel.closed := false |}.
Proof.
  intros Hopen Hroom. unfold channel.send. rewrite Hopen.
  destruct (Nat.ltb_spec (length (channel.buf c)) (channel.cap c)); [done | lia].
Qed.

Lemma send_open_full c v :
  channel.closed c = false ->
  (channel.cap c <= length (channel.buf c))%nat ->
  channel.send c v = channel.SendWouldBlock.
Proof.
  intros Hopen Hfull. unfold channel.send. rewrite Hopen.
  destruct (Nat.ltb_spec (length (channel.buf c)) (channel.cap c)); [lia | done].
Qed.

Lemma send_keeps_open c v c' :
  channel.send c v = channel.Sent c' ->
  channel.closed c' = channel.closed c /\ channel.cap c' = channel.cap c /\
  channel.buf c' = channel.buf c ++ [v] /\
  (length (channel.buf c) < channel.cap c)%nat.
Proof.
  unfold channel.send. destruct (channel.closed c) eqn:Hc; [done |].
  destruct (Nat.ltb_spec (length (channel.buf c)) (channel.cap c)); [| done].
  intros [= <-]. simpl. auto.
Qed.

Lemma recv_keeps_open c v c' :
  channel.recv c = channel.Received v c' ->
  channel.closed c' = channel.closed c /\ channel.cap c' = channel.cap c /\
  channel.buf c = v :: channel.buf c'.
Proof.
  unfold channel.recv. destruct (channel.buf c) as [| w rest] eqn:Hb.
  - by destruct (channel.closed c).
  - by intros [= <- <-].
Qed.
End ChannelFacts.

(** ** [New] *)

(** C9: [New] returns an error exactly when [DatabaseDSN] is empty; with a
    non-empty one it returns the handler, makes the channel and starts the
    one worker goroutine, which is about to connect. *)
Theorem New_fails_iff_dsn_empty (now : Z) (nx : http.Handler) (cfg : Config)
    (nm : string) :
  ((exists err, New now nx (Some cfg) nm = NewError err) <->
   DatabaseDSN cfg = ""%string) /\
  (if decide (DatabaseDSN cfg = ""%string)
   then New now nx (Some cfg) nm = NewError "DatabaseDSN is required"
   else New now nx (Some cfg) nm =
          NewOk {| next := nx; name := nm; config := cfg |}
                {| clock := now; dataChan := channel.make 1000;
                   worker := Connecting; sink := [];
                   trace := [EvGo "processingWorker"] |}).
Proof.
  unfold New. destruct (String.eqb_spec (DatabaseDSN cfg) "") as [He | Hne].
  - split; [split; eauto |]. by case_decide.
  - split; [| by case_decide]. split; [by intros [err ?] | done].
Qed.

(** ** [ServeHTTP] *)

(** What one call does to the system, by whether the queue has room. *)
Lemma ServeHTTP_open (a : Analytics) (rw : http.ResponseWriter)
    (req : http.Request) (s : sys) (clock1 : Z) (rw1 : http.ResponseWriter)
    (req1 : http.Request) :
  channel.closed (dataChan s) = false ->
  next a (clock s) rw req = (clock1, rw1, req1) ->
  ServeHTTP a rw req s =
    if decide (length (channel.buf (dataChan s)) < channel.cap (dataChan s))%nat
    then Done ({| clock := clock1;
                  dataChan :=
                    {| channel.buf := channel.buf (dataChan s) ++
                         [collect req1 (clock s) clock1];
                       channel.cap := channel.cap (dataChan s);
                       channel.closed := false |};
                  worker := worker s; sink := sink s;
                  trace := trace s ++ [EvNext] |}, rw1, req1)
    else Done ({| clock := clock1; dataChan := dataChan s;
                  worker := worker s; sink := sink s;
                  trace := trace s ++
                    [EvNext; EvLog "Analytics channel full, discarding data"] |},
               rw1, req1).
Proof.
  intros Hopen Hnext. unfold ServeHTTP, time.Now. rewrite Hnext.
  unfold offer, after_next. simpl. case_decide as Hroom.
  - by rewrite send_open_room.
  - rewrite send_open_full by (try done; lia). by rewrite <- app_assoc.
Qed.

(** C1: with the channel open, [ServeHTTP] never suspends: when the queue has
    room the record is appended and nothing is logged; when it is full the
    queue is left as it was and exactly one line is logged; either way the
    call returns what the downstream handler produced. *)
Theorem ServeHTTP_enqueue_never_blocks (a : Analytics)
    (rw : http.ResponseWriter) (req : http.Request) (s : sys) :
  channel.closed (dataChan s) = false ->
  let '(clock1, rw1, req1) := next a (clock s) rw req in
  let data := collect req1 (clock s) clock1 in
  ServeHTTP a rw req s <> Blocked /\
  if decide (length (channel.buf (dataChan s)) < channel.cap (dataChan s))%nat
  then ServeHTTP a rw req s =
         Done ({| clock := clock1;
                  dataChan :=
                    {| channel.buf := channel.buf (dataChan s) ++ [data];
                       channel.cap := channel.cap (dataChan s);
                       channel.closed := false |};
                  worker := worker s; sink := sink s;
                  trace := trace s ++ [EvNext] |}, rw1, req1)
  else (channel.cap (dataChan s) <= length (channel.buf (dataChan s)))%nat /\
       ServeHTTP a rw req s =
         Done ({| clock := clock1; dataChan := dataChan s;
                  worker := worker s; sink := sink s;
                  trace := trace s ++
                    [EvNext; EvLog "Analytics channel full, discarding data"] |},
               rw1, req1).
Proof.
  intros Hopen.
  destruct (next a (clock s) rw req) as [[clock1 rw1] req1] eqn:Hnext.
  rewrite (ServeHTTP_open a rw req s clock1 rw1 req1 Hopen Hnext).
  case_decide as Hroom; [done |]. repeat split; try done. lia.
Qed.

Lemma ServeHTTP_enqueue_never_blocks_witness :
  channel.closed (dataChan demo_sys) = false /\
  channel.closed (dataChan demo_full) = false /\
  ServeHTTP demo_analytics demo_writer demo_request demo_sys <> Blocked /\
  ServeHTTP demo_analytics demo_writer demo_request demo_full <> Blocked.
Proof.
  split; [reflexivity |]. split; [reflexivity |]. split.
  - exact (proj1 (ServeHTTP_enqueue_never_blocks
                    demo_analytics demo_writer demo_request demo_sys eq_refl)).
  - exact (proj1 (ServeHTTP_enqueue_never_blocks
                    demo_analytics demo_writer demo_request demo_full eq_refl)).
Defined.

(** C6: the record [ServeHTTP] offers to the queue carries, as observed
    time, the clock read before the downstream handler ran and, as processing
    duration, the clock when that handler has returned minus that reading,
    which is not negative; each of the other ten fields is the matching
    attribute of the request.  The clock is the monotonic one: its readings
    are int64 counts of nanoseconds from zero and do not decrease. *)
Theorem ServeHTTP_record_timing (a : Analytics) (rw : http.ResponseWriter)
    (req : http.Request) (s : sys) :
  0 <= clock s <= (next a (clock s) rw req).1.1 ->
  (next a (clock s) rw req).1.1 <= 2 ^ 63 - 1 ->
  let '(clock1, rw1, req1) := next a (clock s) rw req in
  exists data : RequestData,
    ServeHTTP a rw req s =
      match offer data (after_next clock1 s) with
      | Done s' => Done (s', rw1, req1)
      | Blocked => Blocked
      | Panic => Panic
      end /\
    Time data = clock s /\
    ResponseTime data = clock1 - clock s /\
    0 <= ResponseTime data /\
    IP data = http.RemoteAddr req1 /\
    UserAgent data = http.Get (http.Header req1) "User-Agent" /\
    Path data = http.Path (http.Url req1) /\
    Method data = http.Method req1 /\
    Protocol data = http.Proto req1 /\
    Host data = http.Host req1 /\
    AcceptLanguage data = http.Get (http.Header req1) "Accept-Language" /\
    Referer data = http.Get (http.Header req1) "Referer" /\
    ContentType data = http.Get (http.Header req1) "Content-Type" /\
    ContentLength data = http.ContentLength req1.
Proof.
  unfold ServeHTTP, time.Now.
  destruct (next a (clock s) rw req) as [[clock1 rw1] req1]. simpl.
  intros Hmono Hrange. exists (collect req1 (clock s) clock1).
  unfold collect, time.Since, time.maxDuration, time.minDuration. simpl.
  repeat split; try done; lia.
Qed.

Lemma ServeHTTP_record_timing_witness :
  0 <= clock demo_sys <=
    (next demo_analytics (clock demo_sys) demo_writer demo_request).1.1 /\
  exists data : RequestData,
    ServeHTTP demo_analytics demo_writer demo_request demo_sys =
      match offer data (after_next 12000000 demo_sys) with
      | Done s' =>
          Done (s', (demo_next 0 demo_writer demo_request).1.2, demo_request)
      | Blocked => Blocked
      | Panic => Panic
      end /\
    Time data = 0 /\ ResponseTime data = 12000000.
Proof.
  assert (H : 0 <= clock demo_sys <=
    (next demo_analytics (clock demo_sys) demo_writer demo_request).1.1)
    by (split; vm_compute; discriminate).
  assert (H' : (next demo_analytics (clock demo_sys) demo_writer
                  demo_request).1.1 <= 2 ^ 63 - 1)
    by (vm_compute; discriminate).
  split; [exact H |].
  destruct (ServeHTTP_record_timing demo_analytics demo_writer demo_request
              demo_sys H H') as (data & Hs & Ht & Hd & _).
  exists data. repeat split; assumption.
Defined.

(** C7: with the channel open, [ServeHTTP] applies the downstream handler
    once to the writer and request it was given and returns both as that
    handler left them; the events it adds contain one handler call and no
    storage call, and the rows in the sink and the worker are untouched. *)
Theorem ServeHTTP_passes_through (a : Analytics) (rw : http.ResponseWriter)
    (req : http.Request) (s : sys) :
  channel.closed (dataChan s) = false ->
  let '(clock1, rw1, req1) := next a (clock s) rw req in
  exists (s' : sys) (evs : list event),
    ServeHTTP a rw req s = Done (s', rw1, req1) /\
    trace s' = trace s ++ evs /\
    count is_next evs = 1%nat /\
    count storage_io evs = 0%nat /\
    sink s' = sink s /\
    worker s' = worker s /\
    clock s' = clock1.
Proof.
  intros Hopen.
  destruct (next a (clock s) rw req) as [[clock1 rw1] req1] eqn:Hnext.
  rewrite (ServeHTTP_open a rw req s clock1 rw1 req1 Hopen Hnext).
  case_decide.
  - eexists _, [EvNext]. repeat split; done.
  - eexists _, [EvNext; EvLog "Analytics channel full, discarding data"].
    repeat split; done.
Qed.

Lemma ServeHTTP_passes_through_witness :
  channel.closed (dataChan demo_sys) = false /\
  exists (s' : sys) (evs : list event),
    ServeHTTP demo_analytics demo_writer demo_request demo_sys =
      Done (s', {| http.rw_header := ∅; http.rw_status := Some 200;
                   http.rw_body := "ok" |}, demo_request) /\
    trace s' = trace demo_sys ++ evs /\
    count is_next evs = 1%nat /\
    count storage_io evs = 0%nat.
Proof.
  split; [reflexivity |].
  destruct (ServeHTTP_passes_through demo_analytics demo_writer demo_request
              demo_sys eq_refl) as (s' & evs & H1 & H2 & H3 & H4 & _).
  exists s', evs. repeat split; assumption.
Defined.

(** ** The worker *)

Lemma count_app (p : event -> bool) (l1 l2 : list event) :
  count p (l1 ++ l2) = (count p l1 + count p l2)%nat.
Proof. unfold count. by rewrite filter_app, length_app. Qed.

Lemma drain_step (a : Analytics) (r : sink_reply) (s : sys)
    (d : RequestData) (rest : list RequestData) :
  worker s = Draining ->
  channel.buf (dataChan s) = d :: rest ->
  worker_step a r s = Done (drained s rest (exec_rows d r) (exec_events d r)).
Proof.
  intros Hw Hb. unfold worker_step, channel.recv. by rewrite Hw, Hb.
Qed.

Lemma drained_drained (s : sys) (l1 l2 : list RequestData)
    (rows1 rows2 : list sql.row) (evs1 evs2 : list event) :
  drained (drained s l1 rows1 evs1) l2 rows2 evs2 =
  drained s l2 (rows1 ++ rows2) (evs1 ++ evs2).
Proof. unfold drained. simpl. by rewrite !app_assoc. Qed.

Lemma drain_run (a : Analytics) (ds rest : list RequestData)
    (rs : list sink_reply) (s : sys) :
  worker s = Draining ->
  channel.buf (dataChan s) = ds ++ rest ->
  length rs = length ds ->
  worker_run a rs s =
    Done (drained s rest (concat (zip_with exec_rows ds rs))
                         (concat (zip_with exec_events ds rs))).
Proof.
  revert rs s. induction ds as [| d ds IH]; intros [| r rs] s Hw Hb Hlen;
    try done.
  - simpl. f_equal. destruct s as [ck [b cp cl] w sk tr].
    simpl in *. subst. unfold drained. simpl. by rewrite !app_nil_r.
  - simpl. rewrite (drain_step a r s d (ds ++ rest)) by done.
    rewrite IH by (simpl in *; try done; lia).
    by rewrite drained_drained.
Qed.

Lemma exec_calls_drain (ds : list RequestData) (rs : list sink_reply) :
  length rs = length ds ->
  exec_calls (concat (zip_with exec_events ds rs)) = map exec_args ds.
Proof.
  revert rs. induction ds as [| d ds IH]; intros [| r rs] Hlen; try done.
  simpl in *. unfold exec_calls in *. rewrite flat_map_app, IH by lia.
  unfold exec_events. by destruct (on_exec r).
Qed.

Lemma count_drain (p : event -> bool) (ds : list RequestData)
    (rs : list sink_reply) :
  (forall args, p (EvExec args) = false) ->
  (forall line, p (EvLog line) = false) ->
  count p (concat (zip_with exec_events ds rs)) = 0%nat.
Proof.
  intros Hexec Hlog. revert rs.
  induction ds as [| d ds IH]; intros [| r rs]; try done.
  change (concat (zip_with exec_events (d :: ds) (r :: rs)))
    with (exec_events d r ++ concat (zip_with exec_events ds rs)).
  rewrite count_app, IH, Nat.add_0_r. unfold exec_events, count.
  destruct (on_exec r); rewrite ?filter_cons, ?filter_nil;
    repeat case_decide; simpl; congruence.
Qed.

(** C4: in the drain loop, a record whose write fails is executed once, the
    failure is logged, no row is added for it, and the loop goes on to
    execute each later record once and in order; nothing is closed or
    reopened and the worker does not sleep, so it is still draining on the
    same connection. *)
Theorem failed_write_is_skipped (a : Analytics) (r : sink_reply)
    (rs : list sink_reply) (s : sys) (d : RequestData)
    (rest : list RequestData) (e : sql.failure) :
  worker s = Draining ->
  channel.buf (dataChan s) = d :: rest ->
  on_exec r = Some e ->
  length rs = length rest ->
  let evs :=
    [EvExec (exec_args d); EvLog ("Failed to insert data: " +:+ sql.text e)] ++
    concat (zip_with exec_events rest rs) in
  worker_run a (r :: rs) s =
    Done (drained s [] (concat (zip_with exec_rows rest rs)) evs) /\
  exec_calls evs = map exec_args (d :: rest) /\
  count is_close evs = 0%nat /\
  count is_open evs = 0%nat /\
  count is_sleep evs = 0%nat.
Proof.
  intros Hw Hb He Hlen evs.
  assert (Hev : evs = concat (zip_with exec_events (d :: rest) (r :: rs))).
  { simpl. unfold exec_events at 1. by rewrite He. }
  assert (Hrows : concat (zip_with exec_rows rest rs) =
                  concat (zip_with exec_rows (d :: rest) (r :: rs))).
  { simpl. unfold exec_rows at 2. by rewrite He. }
  rewrite Hev, Hrows. split.
  - apply drain_run; [done | by rewrite app_nil_r | simpl; lia].
  - split; [apply exec_calls_drain; simpl; lia |].
    repeat split; by apply count_drain.
Qed.

Lemma failed_write_is_skipped_witness :
  worker demo_draining = Draining /\
  worker_run demo_analytics [reply_exec_fails sql.RowLevel "invalid input"]
    demo_draining =
    Done (drained demo_draining [] []
            [EvExec (exec_args demo_record);
             EvLog "Failed to insert data: invalid input"]).
Proof.
  split; [reflexivity |].
  exact (proj1 (failed_write_is_skipped demo_analytics
                  (reply_exec_fails sql.RowLevel "invalid input") []
                  demo_draining demo_record []
                  {| sql.class := sql.RowLevel; sql.text := "invalid input" |}
                  eq_refl eq_refl eq_refl eq_refl)).
Defined.

(** C8: a record whose write succeeds is executed once and adds exactly one
    row to the sink; the row gives the twelve columns ip, user_agent, path,
    request_time, method, protocol, host, accept_language, referer,
    content_type, content_length and response_time, in that order, the
    values of the twelve fields of the record, and these are the columns of
    the table after its generated id. *)
Theorem written_record_is_one_row (a : Analytics) (r : sink_reply) (s : sys)
    (d : RequestData) (rest : list RequestData) :
  worker s = Draining ->
  channel.buf (dataChan s) = d :: rest ->
  on_exec r = None ->
  worker_step a r s =
    Done (drained s rest [row_of d] [EvExec (exec_args d)]) /\
  row_of d =
    [("ip", sql.VString (IP d));
     ("user_agent", sql.VString (UserAgent d));
     ("path", sql.VString (Path d));
     ("request_time", sql.VTime (Time d));
     ("method", sql.VString (Method d));
     ("protocol", sql.VString (Protocol d));
     ("host", sql.VString (Host d));
     ("accept_language", sql.VString (AcceptLanguage d));
     ("referer", sql.VString (Referer d));
     ("content_type", sql.VString (ContentType d));
     ("content_length", sql.VInt64 (ContentLength d));
     ("response_time", sql.VDuration (ResponseTime d))]%string /\
  map fst (row_of d) = map sql.col_name (tail sql.request_logs).
Proof.
  intros Hw Hb He. rewrite (drain_step a r s d rest Hw Hb).
  unfold exec_rows, exec_events. rewrite He. by split.
Qed.

Lemma written_record_is_one_row_witness :
  worker demo_draining = Draining /\
  worker_step demo_analytics reply_ok demo_draining =
    Done (drained demo_draining [] [row_of demo_record]
            [EvExec (exec_args demo_record)]).
Proof.
  split; [reflexivity |].
  exact (proj1 (written_record_is_one_row demo_analytics reply_ok
                  demo_draining demo_record [] eq_refl eq_refl eq_refl)).
Defined.

(** C2, as stated, does not hold: on a write that fails because the
    connection is lost the worker neither closes anything nor backs off. *)
Lemma lost_connection_counterexample :
  ~ (forall (a : Analytics) (r : sink_reply) (s : sys) (d : RequestData)
            (rest : list RequestData) (e : sql.failure),
        worker s = Draining ->
        channel.buf (dataChan s) = d :: rest ->
        on_exec r = Some e ->
        sql.class e = sql.Connectivity ->
        exists (s' : sys) (err : string) (evs : list event),
          worker_step a r s = Done s' /\
          worker s' = Backoff err /\
          trace s' = trace s ++ evs /\
          (0 < count is_close evs)%nat).
Proof.
  intros H.
  destruct (H demo_analytics
              (reply_exec_fails sql.Connectivity "write: broken pipe")
              demo_draining demo_record []
              {| sql.class := sql.Connectivity; sql.text := "write: broken pipe" |}
              eq_refl eq_refl eq_refl eq_refl)
    as (s' & err & evs & Hstep & Hw & _).
  vm_compute in Hstep. injection Hstep as <-. discriminate Hw.
Qed.

(** C2, amended: in the drain loop a write that fails because the connection
    is lost is treated as any failed write: it is logged, the record is
    dropped, nothing is closed, the worker does not sleep and it stays in the
    drain loop; the step is the one a row-level failure with the same text
    gives. *)
Theorem lost_connection_keeps_draining (a : Analytics) (r : sink_reply)
    (s : sys) (d : RequestData) (rest : list RequestData) (e : sql.failure) :
  worker s = Draining ->
  channel.buf (dataChan s) = d :: rest ->
  on_exec r = Some e ->
  sql.class e = sql.Connectivity ->
  let evs :=
    [EvExec (exec_args d); EvLog ("Failed to insert data: " +:+ sql.text e)] in
  worker_step a r s = Done (drained s rest [] evs) /\
  worker_step a r s = worker_step a (reply_exec_fails sql.RowLevel (sql.text e)) s /\
  count is_close evs = 0%nat /\
  count is_sleep evs = 0%nat.
Proof.
  intros Hw Hb He _ evs.
  rewrite !(drain_step a _ s d rest Hw Hb).
  unfold exec_rows, exec_events. rewrite He. simpl. done.
Qed.

Lemma lost_connection_keeps_draining_witness :
  worker demo_draining = Draining /\
  worker_step demo_analytics
    (reply_exec_fails sql.Connectivity "write: broken pipe") demo_draining =
    Done (drained demo_draining [] []
            [EvExec (exec_args demo_record);
             EvLog "Failed to insert data: write: broken pipe"]).
Proof.
  split; [reflexivity |].
  exact (proj1 (lost_connection_keeps_draining demo_analytics
                  (reply_exec_fails sql.Connectivity "write: broken pipe")
                  demo_draining demo_record []
                  {| sql.class := sql.Connectivity;
                     sql.text := "write: broken pipe" |}
                  eq_refl eq_refl eq_refl eq_refl)).
Defined.

(** *** Connecting and backing off *)

Lemma worker_step_no_panic (a : Analytics) (r : sink_reply) (s : sys) :
  worker_step a r s <> Panic.
Proof.
  unfold worker_step. destruct (worker s); try done.
  - by destruct (connect (DatabaseDSN (config a)) r).
  - by destruct (channel.recv (dataChan s)).
Qed.

Lemma worker_run_no_panic (a : Analytics) (rs : list sink_reply) (s : sys) :
  worker_run a rs s <> Panic.
Proof.
  revert s. induction rs as [| r rs IH]; intros s; [done |]. simpl.
  destruct (worker_step a r s) eqn:Hs; try done.
  by apply worker_step_no_panic in Hs.
Qed.

Lemma connect_fails_error (dsn : string) (r : sink_reply) :
  connect_fails r = true ->
  exists (pre : list event) (err : string),
    connect dsn r = (EvOpen "postgres" dsn :: pre, Some err) /\
    count is_open pre = 0%nat /\ count is_log pre = 0%nat /\ sleeps pre = [].
Proof.
  unfold connect_fails, connect.
  destruct (on_open r), (on_ping r), (on_prepare r); try done; intros _;
    eexists _, _; (split; [reflexivity | done]).
Qed.

Lemma failed_round (a : Analytics) (r r' : sink_reply) (s : sys) :
  worker s = Connecting ->
  connect_fails r = true ->
  worker_run a [r; r'] s =
    Done (backed_off s 1 (round_events (DatabaseDSN (config a)) r)).
Proof.
  intros Hw Hf. unfold round_events.
  destruct (connect_fails_error (DatabaseDSN (config a)) r Hf)
    as (pre & err & Hc & _).
  cbn [worker_run]. unfold worker_step at 1. rewrite Hw, Hc.
  unfold worker_step. simpl.
  unfold backed_off. simpl. by rewrite <- app_assoc.
Qed.

Lemma backed_off_twice (s : sys) (j k : nat) (evs1 evs2 : list event) :
  backed_off (backed_off s j evs1) k evs2 = backed_off s (j + k) (evs1 ++ evs2).
Proof.
  unfold backed_off. simpl. rewrite app_assoc. f_equal. lia.
Qed.

Lemma failed_rounds (a : Analytics) (rs : list sink_reply) (s : sys) :
  worker s = Connecting ->
  Forall (fun r => connect_fails r = true) rs ->
  worker_run a (attempts rs) s =
    Done (backed_off s (length rs)
            (flat_map (round_events (DatabaseDSN (config a))) rs)).
Proof.
  intros Hw Hall. revert s Hw.
  induction Hall as [| r rs Hf _ IH]; intros s Hw.
  - simpl. f_equal. destruct s. unfold backed_off. simpl in *. subst.
    rewrite app_nil_r. f_equal. lia.
  - change (attempts (r :: rs)) with (r :: r :: attempts rs).
    pose proof (failed_round a r r s Hw Hf) as Hr.
    cbn [worker_run] in Hr |- *.
    destruct (worker_step a r s) as [s1 | |]; try done.
    destruct (worker_step a r s1) as [s2 | |]; try done.
    injection Hr as ->. rewrite IH by done.
    by rewrite backed_off_twice.
Qed.

Lemma round_counts (dsn : string) (r : sink_reply) :
  connect_fails r = true ->
  count is_open (round_events dsn r) = 1%nat /\
  count is_log (round_events dsn r) = 1%nat /\
  sleeps (round_events dsn r) = [5000000000].
Proof.
  intros Hf. unfold round_events.
  destruct (connect_fails_error dsn r Hf) as (pre & err & -> & Ho & Hl & Hs).
  simpl. change (EvOpen "postgres" dsn :: pre ++ backoff_events err)
    with ([EvOpen "postgres" dsn] ++ pre ++ backoff_events err).
  rewrite !count_app, Ho, Hl. unfold sleeps in *.
  rewrite !flat_map_app, Hs. done.
Qed.

(** C3: starting from the point where the worker is about to connect, K
    connection attempts in a row that fail (at open, at the liveness check
    or at the preparation of the statement) take the worker through K
    rounds, each made of the attempt, one log line with the error and one
    sleep of five seconds, and leave it about to connect again with the clock
    K times five seconds later; the queue and the sink are untouched; the
    next step is one more attempt, and no run of the worker ends in a
    panic. *)
Theorem failed_connections_retry (a : Analytics) (rs more : list sink_reply)
    (r' : sink_reply) (s : sys) :
  worker s = Connecting ->
  Forall (fun r => connect_fails r = true) rs ->
  let dsn := DatabaseDSN (config a) in
  let evs := flat_map (round_events dsn) rs in
  let s' := backed_off s (length rs) evs in
  worker_run a (attempts rs) s = Done s' /\
  count is_open evs = length rs /\
  count is_log evs = length rs /\
  sleeps evs = replicate (length rs) (5 * time.Second) /\
  Forall (fun r => exists (pre : list event) (err : string),
            round_events dsn r =
              EvOpen "postgres" dsn :: pre ++
              [EvLog ("Worker encountered an error: " +:+ err);
               EvSleep 5000000000]) rs /\
  (exists (w : wpc) (evs' : list event),
     worker_step a r' s' =
       Done {| clock := clock s'; dataChan := dataChan s'; worker := w;
               sink := sink s';
               trace := trace s' ++ EvOpen "postgres" dsn :: evs' |}) /\
  worker_run a more s' <> Panic.
Proof.
  intros Hw Hall dsn evs s'. split; [by apply failed_rounds |].
  assert (Hcounts : count is_open evs = length rs /\
                    count is_log evs = length rs /\
                    sleeps evs = replicate (length rs) (5 * time.Second)).
  { subst evs. clear s'. induction Hall as [| r rs Hf _ IH]; [done |].
    destruct IH as (IH1 & IH2 & IH3).
    destruct (round_counts dsn r Hf) as (H1 & H2 & H3).
    cbn [flat_map length replicate]. rewrite !count_app, H1, H2, IH1, IH2.
    unfold sleeps in *. rewrite flat_map_app, H3, IH3. done. }
  destruct Hcounts as (H1 & H2 & H3). repeat split; try done.
  - eapply Forall_impl; [exact Hall |]. intros r Hf. simpl in Hf.
    unfold round_events.
    destruct (connect_fails_error dsn r Hf) as (pre & err & -> & _).
    by exists pre, err.
  - unfold worker_step. simpl. fold dsn. unfold connect.
    destruct (on_open r'), (on_ping r'), (on_prepare r'); by eexists _, _.
  - apply worker_run_no_panic.
Qed.

Lemma failed_connections_retry_witness :
  worker demo_sys = Connecting /\
  Forall (fun r => connect_fails r = true) [reply_no_route; reply_no_route] /\
  worker_run demo_analytics (attempts [reply_no_route; reply_no_route])
    demo_sys =
    Done (backed_off demo_sys 2
            (flat_map (round_events "postgres://collector@db/analytics")
               [reply_no_route; reply_no_route])).
Proof.
  assert (Hall : Forall (fun r => connect_fails r = true)
                   [reply_no_route; reply_no_route])
    by (repeat constructor).
  split; [reflexivity |]. split; [exact Hall |].
  exact (proj1 (failed_connections_retry demo_analytics
                  [reply_no_route; reply_no_route] [] reply_ok demo_sys
                  eq_refl Hall)).
Defined.

(** *** The channel stays open *)

Lemma sys_step_channel (a : Analytics) (act : action) (s s' : sys) :
  sys_step a act s = Done s' ->
  channel.closed (dataChan s') = channel.closed (dataChan s) /\
  channel.cap (dataChan s') = channel.cap (dataChan s).
Proof.
  destruct act as [rw req | r]; simpl.
  - unfold ServeHTTP, offer, after_next.
    destruct (next a (clock s) rw req) as [[clock1 rw1] req1]. simpl.
    destruct (channel.send _ _) as [c | |] eqn:Hs; try done.
    + apply send_keeps_open in Hs as (Hc & Hk & _). by intros [= <-].
    + by intros [= <-].
  - unfold worker_step. destruct (worker s).
    + destruct (connect _ r). by intros [= <-].
    + destruct (channel.recv (dataChan s)) as [d c | |] eqn:Hr.
      * apply recv_keeps_open in Hr as (Hc & Hk & _). by intros [= <-].
      * by intros [= <-].
      * by intros [= <-].
    + by intros [= <-].
Qed.

Lemma reachable_open (a : Analytics) (s : sys) :
  reachable a s ->
  channel.closed (dataChan s) = false /\ channel.cap (dataChan s) = 1000%nat.
Proof.
  induction 1 as [now s Hnew | act s s' _ IH Hstep].
  - unfold New in Hnew. destruct (String.eqb _ _); [done |].
    by injection Hnew as _ <-.
  - apply sys_step_channel in Hstep as [-> ->]. exact IH.
Qed.

Lemma sys_step_draining (a : Analytics) (act : action) (s : sys) :
  channel.closed (dataChan s) = false ->
  worker s = Draining ->
  exists (s' : sys) (evs : list event),
    sys_step a act s = Done s' /\
    worker s' = Draining /\
    channel.closed (dataChan s') = false /\
    trace s' = trace s ++ evs /\
    count is_close evs = 0%nat /\
    count is_open evs = 0%nat.
Proof.
  intros Hopen Hw. destruct act as [rw req | r]; simpl.
  - destruct (next a (clock s) rw req) as [[clock1 rw1] req1] eqn:Hnext.
    rewrite (ServeHTTP_open a rw req s clock1 rw1 req1 Hopen Hnext).
    case_decide; eexists _, _; repeat split; try done.
  - destruct (channel.buf (dataChan s)) as [| d rest] eqn:Hb.
    + unfold worker_step, channel.recv. rewrite Hw, Hb, Hopen.
      exists s, []. by rewrite app_nil_r.
    + rewrite (drain_step a r s d rest Hw Hb).
      exists (drained s rest (exec_rows d r) (exec_events d r)), (exec_events d r).
      repeat split; try done; unfold exec_events; by destruct (on_exec r).
Qed.

Lemma sys_run_draining (a : Analytics) (acts : list action) (s : sys) :
  channel.closed (dataChan s) = false ->
  worker s = Draining ->
  exists (s' : sys) (evs : list event),
    sys_run a acts s = Done s' /\
    worker s' = Draining /\
    channel.closed (dataChan s') = false /\
    trace s' = trace s ++ evs /\
    count is_close evs = 0%nat /\
    count is_open evs = 0%nat.
Proof.
  revert s. induction acts as [| act acts IH]; intros s Hopen Hw.
  - exists s, []. by rewrite app_nil_r.
  - destruct (sys_step_draining a act s Hopen Hw)
      as (s1 & evs1 & Hs & Hw1 & Ho1 & Ht1 & Hc1 & Hn1).
    destruct (IH s1 Ho1 Hw1) as (s2 & evs2 & Hr & Hw2 & Ho2 & Ht2 & Hc2 & Hn2).
    exists s2, (evs1 ++ evs2). simpl. rewrite Hs, Hr, Ht2, Ht1.
    rewrite !count_app, Hc1, Hc2, Hn1, Hn2. by rewrite app_assoc.
Qed.

(** The return after the [range] loop is part of the model: on a closed and
    empty channel the drain loop ends, the statement and the connection are
    closed and the worker connects afresh. *)
Remark closed_channel_ends_drain :
  worker_step demo_analytics reply_ok closed_draining =
    Done {| clock := 0; dataChan := dataChan closed_draining;
            worker := Connecting; sink := [];
            trace := [EvStmtClose; EvDbClose] |}.
Proof. reflexivity. Qed.

(** C10: in every state the program reaches from [New], whatever requests
    are served and whatever the sink answers, the channel is open; and from
    such a state with the worker in its drain loop, any further run of
    requests and worker steps goes through, leaves the worker in the drain
    loop with the channel open, and neither closes the statement or the
    connection nor opens a connection: the return after the loop is never
    taken. *)
Theorem drain_loop_never_returns (a : Analytics) (s : sys) (acts : list action) :
  reachable a s ->
  channel.closed (dataChan s) = false /\
  match worker s with
  | Draining =>
      exists (s' : sys) (evs : list event),
        sys_run a acts s = Done s' /\
        reachable a s' /\
        worker s' = Draining /\
        channel.closed (dataChan s') = false /\
        trace s' = trace s ++ evs /\
        count is_close evs = 0%nat /\
        count is_open evs = 0%nat
  | _ => True
  end.
Proof.
  intros Hreach. destruct (reachable_open a s Hreach) as [Hopen _].
  split; [done |]. destruct (worker s) eqn:Hw; try done.
  destruct (sys_run_draining a acts s Hopen Hw)
    as (s' & evs & Hr & Hw' & Ho' & Ht & Hc & Hn).
  exists s', evs. repeat split; try done.
  clear - Hreach Hr. revert s Hreach Hr.
  induction acts as [| act acts IH]; intros s Hreach Hr; simpl in Hr.
  - by injection Hr as <-.
  - destruct (sys_step a act s) as [s1 | |] eqn:Hs; try done.
    eapply IH; [| exact Hr]. by eapply reach_step.
Qed.

Lemma drain_loop_never_returns_witness :
  exists s : sys,
    reachable demo_analytics s /\
    worker s = Draining /\
    exists (s' : sys) (evs : list event),
      sys_run demo_analytics
        [ActServe demo_writer demo_request; ActWorker reply_ok;
         ActWorker reply_ok] s = Done s' /\
      worker s' = Draining /\
      trace s' = trace s ++ evs /\
      count is_close evs = 0%nat.
Proof.
  set (s1 := {| clock := 0; dataChan := channel.make 1000; worker := Draining;
                sink := [];
                trace := [EvGo "processingWorker";
                          EvOpen "postgres" "postgres://collector@db/analytics";
                          EvPing; EvPrepare insert_stmt] |}).
  assert (Hreach : reachable demo_analytics s1).
  { apply (reach_step demo_analytics (ActWorker reply_ok) demo_sys s1).
    - apply (reach_new demo_analytics 0 demo_sys). reflexivity.
    - reflexivity. }
  exists s1. split; [exact Hreach |]. split; [reflexivity |].
  destruct (drain_loop_never_returns demo_analytics s1
              [ActServe demo_writer demo_request; ActWorker reply_ok;
               ActWorker reply_ok] Hreach)
    as [_ (s' & evs & Hr & _ & Hw & _ & Ht & Hc & _)].
  exists s', evs. repeat split; assumption.
Defined.

(** ** The program as a whole *)

Lemma count_cons (p : event -> bool) (e : event) (l : list event) :
  count p (e :: l) = ((if p e then 1 else 0) + count p l)%nat.
Proof.
  unfold count. rewrite filter_cons. destruct (p e); by case_decide.
Qed.

Lemma count_nil (p : event -> bool) : count p [] = 0%nat.
Proof. done. Qed.

Lemma exec_calls_app (l1 l2 : list event) :
  exec_calls (l1 ++ l2) = exec_calls l1 ++ exec_calls l2.
Proof. apply flat_map_app. Qed.

Lemma sleeps_app (l1 l2 : list event) :
  sleeps (l1 ++ l2) = sleeps l1 ++ sleeps l2.
Proof. apply flat_map_app. Qed.

Lemma prefix_append (p x : string) : String.prefix p (p +:+ x) = true.
Proof.
  induction p as [| c p IH]; simpl; [by destruct x |].
  by destruct (Ascii.ascii_dec c c).
Qed.

(** Every step of the program on an open channel is one of six moves. *)
Lemma sys_step_open (a : Analytics) (act : action) (s s' : sys) :
  channel.closed (dataChan s) = false ->
  sys_step a act s = Done s' ->
  (exists (data : RequestData) (clock1 : Z),
      (length (channel.buf (dataChan s)) < channel.cap (dataChan s))%nat /\
      s' = {| clock := clock1;
              dataChan := {| channel.buf := channel.buf (dataChan s) ++ [data];
                             channel.cap := channel.cap (dataChan s);
                             channel.closed := false |};
              worker := worker s; sink := sink s;
              trace := trace s ++ [EvNext] |}) \/
  (exists clock1 : Z,
      (channel.cap (dataChan s) <= length (channel.buf (dataChan s)))%nat /\
      s' = {| clock := clock1; dataChan := dataChan s; worker := worker s;
              sink := sink s;
              trace := trace s ++
                [EvNext; EvLog "Analytics channel full, discarding data"] |}) \/
  (exists r : sink_reply,
      worker s = Connecting /\
      s' = {| clock := clock s; dataChan := dataChan s;
              worker := match (connect (DatabaseDSN (config a)) r).2 with
                        | Some err => Backoff err
                        | None => Draining
                        end;
              sink := sink s;
              trace := trace s ++ (connect (DatabaseDSN (config a)) r).1 |}) \/
  (exists err : string,
      worker s = Backoff err /\
      s' = {| clock := clock s + 5 * time.Second; dataChan := dataChan s;
              worker := Connecting; sink := sink s;
              trace := trace s ++ backoff_events err |}) \/
  (exists (r : sink_reply) (d : RequestData) (rest : list RequestData),
      worker s = Draining /\
      channel.buf (dataChan s) = d :: rest /\
      s' = drained s rest (exec_rows d r) (exec_events d r)) \/
  (worker s = Draining /\ channel.buf (dataChan s) = [] /\ s' = s).
Proof.
  intros Hopen. destruct act as [rw req | r]; simpl.
  - destruct (next a (clock s) rw req) as [[clock1 rw1] req1] eqn:Hnext.
    rewrite (ServeHTTP_open a rw req s clock1 rw1 req1 Hopen Hnext).
    case_decide as Hroom; intros [= <-].
    + left. by eexists _, _.
    + right; left. eexists. split; [lia | done].
  - destruct (worker s) as [| | err] eqn:Hw.
    + unfold worker_step. rewrite Hw.
      destruct (connect (DatabaseDSN (config a)) r) as [evs res] eqn:Hc.
      intros [= <-]. do 2 right; left. exists r. by rewrite Hc.
    + destruct (channel.buf (dataChan s)) as [| d rest] eqn:Hb.
      * unfold worker_step, channel.recv. rewrite Hw, Hb, Hopen.
        intros [= <-]. by do 5 right.
      * rewrite (drain_step a r s d rest Hw Hb). intros [= <-].
        do 4 right; left. by exists r, d, rest.
    + unfold worker_step. rewrite Hw. intros [= <-].
      do 3 right; left. by exists err.
Qed.

(** On an open channel every step goes through. *)
Lemma sys_step_done (a : Analytics) (act : action) (s : sys) :
  channel.closed (dataChan s) = false ->
  exists s' : sys, sys_step a act s = Done s'.
Proof.
  intros Hopen. destruct act as [rw req | r]; simpl.
  - destruct (next a (clock s) rw req) as [[clock1 rw1] req1] eqn:Hnext.
    rewrite (ServeHTTP_open a rw req s clock1 rw1 req1 Hopen Hnext).
    case_decide; by eexists.
  - pose proof (worker_step_no_panic a r s) as Hp.
    destruct (worker_step a r s); [by eexists | by eexists | done].
Qed.

Lemma insert_failure_line (x : string) :
  is_drop (EvLog ("Failed to insert data: " +:+ x)) = false /\
  is_insert_failure (EvLog ("Failed to insert data: " +:+ x)) = true /\
  is_worker_error (EvLog ("Failed to insert data: " +:+ x)) = false.
Proof.
  split; [done |]. split; [apply prefix_append | done].
Qed.

Lemma worker_error_line (x : string) :
  is_drop (EvLog ("Worker encountered an error: " +:+ x)) = false /\
  is_insert_failure (EvLog ("Worker encountered an error: " +:+ x)) = false /\
  is_worker_error (EvLog ("Worker encountered an error: " +:+ x)) = true.
Proof.
  split; [done |]. split; [done | apply prefix_append].
Qed.

Ltac count_events :=
  rewrite ?count_app, ?exec_calls_app, ?sleeps_app, ?length_app,
    ?count_cons, ?count_nil;
  rewrite ?(proj1 (insert_failure_line _)),
    ?(proj1 (proj2 (insert_failure_line _))),
    ?(proj2 (proj2 (insert_failure_line _))),
    ?(proj1 (worker_error_line _)),
    ?(proj1 (proj2 (worker_error_line _))),
    ?(proj2 (proj2 (worker_error_line _)));
  simpl.

Ltac close_inv :=
  repeat split; rewrite ?app_nil_r; try done; try lia;
  try (apply Forall_app; split; [done | by repeat constructor]).

Lemma sys_step_inv (a : Analytics) (act : action) (s s' : sys) :
  channel.closed (dataChan s) = false ->
  sys_step a act s = Done s' ->
  sys_inv s -> sys_inv s'.
Proof.
  intros Hopen Hstep (Hreq & Hexec & Hrows & Hconn & Hatt & Herr & Hsl & Hcap).
  destruct (sys_step_open a act s s' Hopen Hstep)
    as [(data & clock1 & Hroom & ->) |
        [(clock1 & Hfull & ->) |
         [(r & Hw & ->) |
          [(err & Hw & ->) |
           [(r & d & rest & Hw & Hb & ->) | (Hw & Hb & ->)]]]]].
  - unfold sys_inv. simpl. count_events. close_inv.
  - unfold sys_inv. simpl. count_events. close_inv.
  - unfold sys_inv. simpl. rewrite Hw in *. simpl in *. unfold connect.
    destruct (on_open r), (on_ping r), (on_prepare r); simpl; count_events;
      close_inv.
  - unfold sys_inv. simpl. rewrite Hw in *. simpl in *. unfold backoff_events.
    count_events. close_inv.
  - unfold sys_inv, drained. simpl. rewrite Hw, Hb in *. simpl in *.
    unfold exec_rows, exec_events.
    destruct (on_exec r); simpl; count_events; close_inv.
  - done.
Qed.

Lemma reachable_run (a : Analytics) (acts : list action) (s s' : sys) :
  reachable a s -> sys_run a acts s = Done s' -> reachable a s'.
Proof.
  revert s. induction acts as [| act acts IH]; intros s Hreach Hrun;
    simpl in Hrun.
  - by injection Hrun as <-.
  - destruct (sys_step a act s) as [s1 | |] eqn:Hs; try done.
    eapply IH; [| exact Hrun]. by eapply reach_step.
Qed.

Lemma reachable_inv (a : Analytics) (s : sys) : reachable a s -> sys_inv s.
Proof.
  induction 1 as [now s Hnew | act s s' Hreach IH Hstep].
  - unfold New in Hnew. destruct (String.eqb _ _); [done |].
    injection Hnew as _ <-. unfold sys_inv. simpl.
    rewrite !count_cons, !count_nil. simpl. repeat split; try done; lia.
  - destruct (reachable_open a s Hreach) as [Hopen _].
    by apply (sys_step_inv a act s s').
Qed.

Lemma demo_schedule_reachable (s : sys) :
  sys_run demo_analytics demo_schedule demo_sys = Done s ->
  reachable demo_analytics s.
Proof.
  apply reachable_run. by apply (reach_new demo_analytics 0 demo_sys).
Qed.

(** X1: the configuration [CreateConfig] returns has no DSN, so [New]
    refuses it, whatever the handler and the name. *)
Theorem New_refuses_default_config (now : Z) (nx : http.Handler) (nm : string) :
  New now nx (Some CreateConfig) nm = NewError "DatabaseDSN is required".
Proof. reflexivity. Qed.

(** X2: in every state the program reaches, each request served so far is
    accounted for exactly once: its record has been executed, is still in the
    queue, or was discarded with one log line; and the queue holds at most
    1000 records. *)
Theorem requests_accounted (a : Analytics) (s : sys) :
  reachable a s ->
  count is_next (trace s) =
    (length (exec_calls (trace s)) + length (channel.buf (dataChan s)) +
     count is_drop (trace s))%nat /\
  (length (channel.buf (dataChan s)) <= 1000)%nat.
Proof.
  intros Hreach. destruct (reachable_inv a s Hreach) as (H & _ & _ & _ & _ & _ & _ & Hcap).
  destruct (reachable_open a s Hreach) as [_ Hk]. split; [done | lia].
Qed.

Lemma requests_accounted_witness :
  exists s : sys,
    sys_run demo_analytics demo_schedule demo_sys = Done s /\
    reachable demo_analytics s /\
    count is_next (trace s) =
      (length (exec_calls (trace s)) + length (channel.buf (dataChan s)) +
       count is_drop (trace s))%nat /\
    (length (channel.buf (dataChan s)) <= 1000)%nat.
Proof.
  destruct (sys_run demo_analytics demo_schedule demo_sys) as [s | |] eqn:Hrun;
    [| vm_compute in Hrun; discriminate ..].
  exists s. split; [reflexivity |].
  split; [exact (demo_schedule_reachable s Hrun) |].
  exact (requests_accounted demo_analytics s (demo_schedule_reachable s Hrun)).
Defined.

(** X3: in every state the program reaches, each record executed so far
    either added one row to the sink or left one line about a failed insert,
    never both and never more; and every row in the sink has the twelve
    columns of the statement, in order. *)
Theorem executed_accounted (a : Analytics) (s : sys) :
  reachable a s ->
  length (exec_calls (trace s)) =
    (length (sink s) + count is_insert_failure (trace s))%nat /\
  Forall (fun row => map fst row = sql.columns insert_stmt) (sink s).
Proof.
  intros Hreach. by destruct (reachable_inv a s Hreach) as (_ & H1 & H2 & _).
Qed.

Lemma executed_accounted_witness :
  exists s : sys,
    sys_run demo_analytics demo_schedule demo_sys = Done s /\
    reachable demo_analytics s /\
    length (exec_calls (trace s)) =
      (length (sink s) + count is_insert_failure (trace s))%nat /\
    Forall (fun row => map fst row = sql.columns insert_stmt) (sink s).
Proof.
  destruct (sys_run demo_analytics demo_schedule demo_sys) as [s | |] eqn:Hrun;
    [| vm_compute in Hrun; discriminate ..].
  exists s. split; [reflexivity |].
  split; [exact (demo_schedule_reachable s Hrun) |].
  exact (executed_accounted demo_analytics s (demo_schedule_reachable s Hrun)).
Defined.

(** X4: in every state the program reaches, every connection that passed
    [sql.Open] and was then given up has been closed, and exactly one is held
    while the worker drains: the liveness checks made are the connections
    closed, plus one if the worker is in its drain loop. *)
Theorem connection_never_leaks (a : Analytics) (s : sys) :
  reachable a s ->
  count is_ping (trace s) =
    (count is_db_close (trace s) + connected (worker s))%nat.
Proof.
  intros Hreach. by destruct (reachable_inv a s Hreach) as (_ & _ & _ & H & _).
Qed.

Lemma connection_never_leaks_witness :
  exists s : sys,
    sys_run demo_analytics demo_schedule demo_sys = Done s /\
    reachable demo_analytics s /\
    count is_ping (trace s) =
      (count is_db_close (trace s) + connected (worker s))%nat.
Proof.
  destruct (sys_run demo_analytics demo_schedule demo_sys) as [s | |] eqn:Hrun;
    [| vm_compute in Hrun; discriminate ..].
  exists s. split; [reflexivity |].
  split; [exact (demo_schedule_reachable s Hrun) |].
  exact (connection_never_leaks demo_analytics s (demo_schedule_reachable s Hrun)).
Defined.

(** X5: in every state the program reaches, the worker has slept once, for
    five seconds, after each connection attempt that failed and at no other
    time, and has logged each such failure once; it has made one attempt
    more than it has slept exactly when an attempt is under way or has
    succeeded, so it connects successfully at most once. *)
Theorem backoff_accounted (a : Analytics) (s : sys) :
  reachable a s ->
  count is_open (trace s) =
    (count is_sleep (trace s) + attempted (worker s))%nat /\
  count is_worker_error (trace s) = count is_sleep (trace s) /\
  Forall (fun d => d = 5000000000) (sleeps (trace s)).
Proof.
  intros Hreach.
  by destruct (reachable_inv a s Hreach) as (_ & _ & _ & _ & H1 & H2 & H3 & _).
Qed.

Lemma backoff_accounted_witness :
  exists s : sys,
    sys_run demo_analytics demo_schedule demo_sys = Done s /\
    reachable demo_analytics s /\
    count is_open (trace s) =
      (count is_sleep (trace s) + attempted (worker s))%nat /\
    count is_worker_error (trace s) = count is_sleep (trace s) /\
    Forall (fun d => d = 5000000000) (sleeps (trace s)).
Proof.
  destruct (sys_run demo_analytics demo_schedule demo_sys) as [s | |] eqn:Hrun;
    [| vm_compute in Hrun; discriminate ..].
  exists s. split; [reflexivity |].
  split; [exact (demo_schedule_reachable s Hrun) |].
  exact (backoff_accounted demo_analytics s (demo_schedule_reachable s Hrun)).
Defined.


Example demo_schedule_counts :
  exists s : sys,
    sys_run demo_analytics demo_schedule demo_sys = Done s /\
    worker s = Draining /\
    count is_next (trace s) = 3%nat /\
    length (exec_calls (trace s)) = 2%nat /\
    length (channel.buf (dataChan s)) = 1%nat /\
    length (sink s) = 1%nat /\
    count is_insert_failure (trace s) = 1%nat /\
    count is_drop (trace s) = 0%nat /\
    count is_open (trace s) = 2%nat /\
    count is_ping (trace s) = 2%nat /\
    count is_db_close (trace s) = 1%nat /\
    sleeps (trace s) = [5000000000].
Proof.
  eexists. split; [vm_compute; reflexivity |].
  repeat split; vm_compute; reflexivity.
Qed.

(** *** Order of delivery *)

Lemma connect_no_exec (dsn : string) (r : sink_reply) :
  exec_calls (connect dsn r).1 = [].
Proof.
  unfold connect. by destruct (on_open r), (on_ping r), (on_prepare r).
Qed.

Lemma exec_events_calls (d : RequestData) (r : sink_reply) :
  exec_calls (exec_events d r) = [exec_args d].
Proof. unfold exec_events. by destruct (on_exec r). Qed.

Lemma pipeline_step (a : Analytics) (act : action) (s s' : sys) :
  channel.closed (dataChan s) = false ->
  sys_step a act s = Done s' ->
  exists extra : list (list sql.arg),
    pipeline s' = pipeline s ++ extra /\
    (length extra <= requests [act])%nat.
Proof.
  intros Hopen. destruct act as [rw req | r]; simpl.
  - destruct (next a (clock s) rw req) as [[clock1 rw1] req1] eqn:Hnext.
    rewrite (ServeHTTP_open a rw req s clock1 rw1 req1 Hopen Hnext).
    case_decide; intros [= <-]; unfold pipeline; simpl;
      rewrite exec_calls_app; simpl; rewrite app_nil_r.
    + exists [exec_args (collect req1 (clock s) clock1)].
      rewrite map_app. simpl. split; [by rewrite app_assoc | lia].
    + exists []. rewrite app_nil_r. split; [done | simpl; lia].
  - destruct (worker s) as [| | err] eqn:Hw.
    + unfold worker_step. rewrite Hw.
      destruct (connect (DatabaseDSN (config a)) r) as [evs res] eqn:Hc.
      intros [= <-]. exists []. unfold pipeline. simpl.
      pose proof (connect_no_exec (DatabaseDSN (config a)) r) as Hne.
      rewrite Hc in Hne. simpl in Hne.
      rewrite exec_calls_app, Hne, !app_nil_r. split; [done | simpl; lia].
    + destruct (channel.buf (dataChan s)) as [| d rest] eqn:Hb.
      * unfold worker_step, channel.recv. rewrite Hw, Hb, Hopen.
        intros [= <-]. exists []. rewrite app_nil_r. split; [done | simpl; lia].
      * rewrite (drain_step a r s d rest Hw Hb). intros [= <-].
        exists []. unfold pipeline, drained. simpl.
        rewrite exec_calls_app, exec_events_calls, Hb, app_nil_r. simpl.
        rewrite <- app_assoc. split; [done | simpl; lia].
    + unfold worker_step. rewrite Hw. intros [= <-]. exists [].
      unfold pipeline. simpl. rewrite exec_calls_app. simpl.
      rewrite !app_nil_r. split; [done | simpl; lia].
Qed.

Lemma pipeline_run (a : Analytics) (acts : list action) (s : sys) :
  channel.closed (dataChan s) = false ->
  exists (s' : sys) (extra : list (list sql.arg)),
    sys_run a acts s = Done s' /\
    pipeline s' = pipeline s ++ extra /\
    (length extra <= requests acts)%nat.
Proof.
  revert s. induction acts as [| act acts IH]; intros s Hopen.
  - exists s, []. rewrite app_nil_r. simpl. split; [done |]. split; [done | simpl; lia].
  - destruct (sys_step_done a act s Hopen) as [s1 Hs].
    destruct (pipeline_step a act s s1 Hopen Hs) as (e1 & Hp1 & Hl1).
    destruct (sys_step_channel a act s s1 Hs) as [Hc _].
    rewrite Hopen in Hc.
    destruct (IH s1 Hc) as (s2 & e2 & Hr & Hp2 & Hl2).
    exists s2, (e1 ++ e2). simpl. rewrite Hs, Hr, Hp2, Hp1.
    rewrite length_app, app_assoc. split; [done |]. split; [done |].
    simpl in Hl1. destruct act; simpl; lia.
Qed.

(** X6: from any state the program reaches, every schedule of requests and
    worker steps runs through without a panic, and the line of records,
    those executed followed by those still queued, only grows at its far
    end, by at most one record per request: records reach the sink in the
    order they entered the queue, none twice, none overtaking. *)
Theorem records_executed_in_order (a : Analytics) (s : sys)
    (acts : list action) :
  reachable a s ->
  exists (s' : sys) (extra : list (list sql.arg)),
    sys_run a acts s = Done s' /\
    exec_calls (trace s') ++ map exec_args (channel.buf (dataChan s')) =
      (exec_calls (trace s) ++ map exec_args (channel.buf (dataChan s))) ++
      extra /\
    (length extra <= requests acts)%nat.
Proof.
  intros Hreach. destruct (reachable_open a s Hreach) as [Hopen _].
  exact (pipeline_run a acts s Hopen).
Qed.

Lemma records_executed_in_order_witness :
  reachable demo_analytics demo_sys /\
  exists (s' : sys) (extra : list (list sql.arg)),
    sys_run demo_analytics demo_schedule demo_sys = Done s' /\
    exec_calls (trace s') ++ map exec_args (channel.buf (dataChan s')) =
      (exec_calls (trace demo_sys) ++
       map exec_args (channel.buf (dataChan demo_sys))) ++ extra /\
    (length extra <= requests demo_schedule)%nat.
Proof.
  assert (Hreach : reachable demo_analytics demo_sys)
    by (by apply (reach_new demo_analytics 0 demo_sys)).
  split; [exact Hreach |].
  exact (records_executed_in_order demo_analytics demo_sys demo_schedule Hreach).
Defined.

(** *** A burst of requests *)

(** X7: a burst of N requests served with no worker step in between, on an
    open queue within its capacity, appends the records of the first
    requests, as many as there is room for, behind those already queued and
    keeps nothing of the rest: each request calls the downstream handler
    once, each request beyond the room left logs one line, and nothing else
    is logged; no storage call is made and the worker and the sink are left
    alone. *)
Theorem burst_fills_queue_then_drops (a : Analytics)
    (reqs : list (http.ResponseWriter * http.Request)) (s : sys) :
  channel.closed (dataChan s) = false ->
  (length (channel.buf (dataChan s)) <= channel.cap (dataChan s))%nat ->
  exists (s' : sys) (added : list RequestData) (evs : list event),
    sys_run a (serve_all reqs) s = Done s' /\
    dataChan s' =
      {| channel.buf := channel.buf (dataChan s) ++ added;
         channel.cap := channel.cap (dataChan s);
         channel.closed := false |} /\
    length added =
      Nat.min (length reqs)
              (channel.cap (dataChan s) - length (channel.buf (dataChan s))) /\
    worker s' = worker s /\
    sink s' = sink s /\
    trace s' = trace s ++ evs /\
    count is_next evs = length reqs /\
    count is_log evs = (length reqs - length added)%nat /\
    count is_drop evs = (length reqs - length added)%nat /\
    count storage_io evs = 0%nat.
Proof.
  revert s. induction reqs as [| [rw req] reqs IH]; intros s Hopen Hcap.
  - exists s, [], []. rewrite !app_nil_r. simpl.
    destruct s as [ck [b cp cl] w sk tr]. simpl in *. subst.
    repeat split; try done; lia.
  - cbn [serve_all map sys_run sys_step fst snd].
    destruct (next a (clock s) rw req) as [[clock1 rw1] req1] eqn:Hnext.
    rewrite (ServeHTTP_open a rw req s clock1 rw1 req1 Hopen Hnext).
    case_decide as Hroom; fold (serve_all reqs);
      match goal with
      | |- context [sys_run a (serve_all reqs) ?s1] =>
          destruct (IH s1) as (s' & added & evs & Hr & Hch & Hlen & Hw & Hs &
                               Ht & Hn & Hl & Hd & Hio);
            [done | simpl; rewrite ?length_app; simpl; lia |]
      end; clear IH; simpl in *.
    + rewrite length_app in Hlen. simpl in Hlen.
      assert (Hlen' : S (length added) =
                Nat.min (S (length reqs))
                  (channel.cap (dataChan s) - length (channel.buf (dataChan s))))
        by lia.
      exists s', (collect req1 (clock s) clock1 :: added), (EvNext :: evs).
      rewrite Hr, Hch, Ht, <- !app_assoc. simpl.
      rewrite !count_cons. simpl.
      repeat split; try done; try exact Hlen'; lia.
    + assert (Hlen' : length added =
                Nat.min (S (length reqs))
                  (channel.cap (dataChan s) - length (channel.buf (dataChan s))))
        by lia.
      exists s', added,
        (EvNext :: EvLog "Analytics channel full, discarding data" :: evs).
      rewrite Hr, Hch, Ht, <- !app_assoc. simpl.
      rewrite !count_cons. simpl.
      repeat split; try done; try exact Hlen'; lia.
Qed.

Lemma burst_fills_queue_then_drops_witness :
  channel.closed (dataChan demo_sys) = false /\
  (length (channel.buf (dataChan demo_sys)) <=
   channel.cap (dataChan demo_sys))%nat /\
  exists (s' : sys) (added : list RequestData) (evs : list event),
    sys_run demo_analytics
      (serve_all [(demo_writer, demo_request); (demo_writer, demo_request)])
      demo_sys = Done s' /\
    length added = 2%nat /\
    count is_next evs = 2%nat /\
    count is_drop evs = 0%nat.
Proof.
  split; [reflexivity |]. split; [simpl; lia |].
  destruct (burst_fills_queue_then_drops demo_analytics
              [(demo_writer, demo_request); (demo_writer, demo_request)]
              demo_sys eq_refl)
    as (s' & added & evs & Hr & _ & Hlen & _ & _ & _ & Hn & _ & Hd & _).
  { simpl. lia. }
  exists s', added, evs. rewrite Hd, Hlen. repeat split; assumption || reflexivity.
Defined.

(** *** Recovery *)

Lemma worker_run_app (a : Analytics) (l1 l2 : list sink_reply) (s : sys) :
  worker_run a (l1 ++ l2) s =
    match worker_run a l1 s with
    | Done s1 => worker_run a l2 s1
    | Blocked => Blocked
    | Panic => Panic
    end.
Proof.
  revert s. induction l1 as [| r l1 IH]; intros s; [done |]. simpl.
  by destruct (worker_step a r s).
Qed.

(** X8: an outage followed by recovery loses nothing that is in the queue.
    From the point where the worker is about to connect, K attempts that
    fail, one that succeeds and then one answer of the sink per queued record
    leave the worker draining an empty queue, K times five seconds later,
    having executed every record that was queued, once each and oldest
    first, on the connection it opened last. *)
Theorem outage_then_drain (a : Analytics) (rs es : list sink_reply)
    (r : sink_reply) (s : sys) :
  worker s = Connecting ->
  Forall (fun r => connect_fails r = true) rs ->
  connect_fails r = false ->
  length es = length (channel.buf (dataChan s)) ->
  let dsn := DatabaseDSN (config a) in
  let ds := channel.buf (dataChan s) in
  worker_run a (attempts rs ++ r :: es) s =
    Done {| clock := clock s + Z.of_nat (length rs) * (5 * time.Second);
            dataChan := {| channel.buf := [];
                           channel.cap := channel.cap (dataChan s);
                           channel.closed := channel.closed (dataChan s) |};
            worker := Draining;
            sink := sink s ++ concat (zip_with exec_rows ds es);
            trace := trace s ++ flat_map (round_events dsn) rs ++
                     [EvOpen "postgres" dsn; EvPing; EvPrepare insert_stmt] ++
                     concat (zip_with exec_events ds es) |} /\
  exec_calls (concat (zip_with exec_events ds es)) = map exec_args ds.
Proof.
  intros Hw Hall Hok Hlen dsn ds. split; [| by apply exec_calls_drain].
  rewrite worker_run_app, (failed_rounds a rs s Hw Hall). cbn [worker_run].
  unfold worker_step at 1. cbn [worker backed_off].
  assert (Hc : connect (DatabaseDSN (config a)) r =
               ([EvOpen "postgres" dsn; EvPing; EvPrepare insert_stmt], None)).
  { unfold connect_fails in Hok. unfold connect.
    by destruct (on_open r), (on_ping r), (on_prepare r). }
  rewrite Hc.
  rewrite (drain_run a ds [] es); simpl; try done; [| by rewrite app_nil_r].
  unfold drained. simpl. by rewrite <- !app_assoc.
Qed.

Lemma outage_then_drain_witness :
  worker demo_queued = Connecting /\
  Forall (fun r => connect_fails r = true) [reply_no_route] /\
  connect_fails reply_ok = false /\
  exists s' : sys,
    worker_run demo_analytics
      (attempts [reply_no_route] ++ reply_ok :: [reply_ok]) demo_queued =
      Done s' /\
    worker s' = Draining /\
    clock s' = 5012000000 /\
    channel.buf (dataChan s') = [] /\
    sink s' = [row_of demo_record].
Proof.
  assert (Hall : Forall (fun r => connect_fails r = true) [reply_no_route])
    by (repeat constructor).
  split; [reflexivity |]. split; [exact Hall |]. split; [reflexivity |].
  eexists. split.
  - exact (proj1 (outage_then_drain demo_analytics [reply_no_route] [reply_ok]
                    reply_ok demo_queued eq_refl Hall eq_refl eq_refl)).
  - repeat split; reflexivity.
Defined.

(** *** The request path and the worker *)

(** X9: what [ServeHTTP] does depends on the clock and the queue only, not
    on where the worker stands or on what the sink holds: from two states
    that agree on clock and queue it returns the same writer and request,
    leaves the same queue and clock, adds the same events, and keeps each
    state's worker and sink as they were. *)
Theorem ServeHTTP_ignores_worker (a : Analytics) (rw : http.ResponseWriter)
    (req : http.Request) (s1 s2 : sys) :
  clock s1 = clock s2 ->
  dataChan s1 = dataChan s2 ->
  match ServeHTTP a rw req s1, ServeHTTP a rw req s2 with
  | Done (s1', rw1, req1), Done (s2', rw2, req2) =>
      rw1 = rw2 /\ req1 = req2 /\
      clock s1' = clock s2' /\
      dataChan s1' = dataChan s2' /\
      worker s1' = worker s1 /\ sink s1' = sink s1 /\
      worker s2' = worker s2 /\ sink s2' = sink s2 /\
      exists evs : list event,
        trace s1' = trace s1 ++ evs /\ trace s2' = trace s2 ++ evs
  | Panic, Panic => True
  | _, _ => False
  end.
Proof.
  intros Hclock Hchan. unfold ServeHTTP, offer, after_next, time.Now.
  rewrite Hclock. destruct (next a (clock s2) rw req) as [[clock1 rw1] req1].
  simpl. rewrite Hchan.
  destruct (channel.send (dataChan s2) _); simpl; try done.
  - repeat split; try done. by exists [EvNext].
  - repeat split; try done.
    exists [EvNext; EvLog "Analytics channel full, discarding data"].
    by rewrite <- !app_assoc.
Qed.

Lemma ServeHTTP_ignores_worker_witness :
  clock demo_sys = clock demo_outage /\
  dataChan demo_sys = dataChan demo_outage /\
  match ServeHTTP demo_analytics demo_writer demo_request demo_sys,
        ServeHTTP demo_analytics demo_writer demo_request demo_outage with
  | Done (s1', rw1, req1), Done (s2', rw2, req2) =>
      rw1 = rw2 /\ req1 = req2 /\
      clock s1' = clock s2' /\
      dataChan s1' = dataChan s2' /\
      worker s1' = worker demo_sys /\ sink s1' = sink demo_sys /\
      worker s2' = worker demo_outage /\ sink s2' = sink demo_outage /\
      exists evs : list event,
        trace s1' = trace demo_sys ++ evs /\
        trace s2' = trace demo_outage ++ evs
  | Panic, Panic => True
  | _, _ => False
  end.
Proof.
  split; [reflexivity |]. split; [reflexivity |].
  exact (ServeHTTP_ignores_worker demo_analytics demo_writer demo_request
           demo_sys demo_outage eq_refl eq_refl).
Defined.

(** X10: in every state the program reaches, a worker step suspends exactly
    when the worker is in its drain loop and the queue is empty; while it
    connects or backs off, and whenever a record is queued, it goes on. *)
Theorem worker_blocks_only_on_empty_queue (a : Analytics) (r : sink_reply)
    (s : sys) :
  reachable a s ->
  worker_step a r s = Blocked <->
  worker s = Draining /\ channel.buf (dataChan s) = [].
Proof.
  intros Hreach. destruct (reachable_open a s Hreach) as [Hopen _].
  unfold worker_step, channel.recv. rewrite Hopen.
  destruct (worker s).
  - destruct (connect _ r). split; [done | by intros [? _]].
  - destruct (channel.buf (dataChan s)); split; try done. by intros [_ ?].
  - split; [done | by intros [? _]].
Qed.

Lemma worker_blocks_only_on_empty_queue_witness :
  reachable demo_analytics demo_idle /\
  worker_step demo_analytics reply_ok demo_idle = Blocked.
Proof.
  assert (Hreach : reachable demo_analytics demo_idle).
  { apply (reach_step demo_analytics (ActWorker reply_ok) demo_sys demo_idle).
    - by apply (reach_new demo_analytics 0 demo_sys).
    - reflexivity. }
  split; [exact Hreach |].
  apply (worker_blocks_only_on_empty_queue demo_analytics reply_ok demo_idle
           Hreach).
  split; reflexivity.
Defined.

(** *** The queue of the program *)

Lemma queue_line_step (a : Analytics) (act : action) (s s' : sys) :
  channel.closed (dataChan s) = false ->
  sys_step a act s = Done s' ->
  exists added : list RequestData,
    pipeline s' = pipeline s ++ map exec_args added /\
    (length added <= requests [act])%nat.
Proof.
  intros Hopen. destruct act as [rw req | r]; simpl.
  - destruct (next a (clock s) rw req) as [[clock1 rw1] req1] eqn:Hnext.
    rewrite (ServeHTTP_open a rw req s clock1 rw1 req1 Hopen Hnext).
    case_decide; intros [= <-]; unfold pipeline; simpl;
      rewrite exec_calls_app; simpl; rewrite app_nil_r.
    + exists [collect req1 (clock s) clock1].
      rewrite map_app. simpl. split; [by rewrite app_assoc | lia].
    + exists []. simpl. rewrite app_nil_r. split; [done | lia].
  - intros Hstep. exists []. simpl. rewrite app_nil_r. split; [| lia].
    destruct (pipeline_step a (ActWorker r) s s' Hopen Hstep)
      as (extra & Hline & Hlen).
    simpl in Hlen. destruct extra; [| simpl in Hlen; lia].
    by rewrite app_nil_r in Hline.
Qed.

Lemma queue_line_run (a : Analytics) (acts : list action) (s : sys) :
  channel.closed (dataChan s) = false ->
  exists (s' : sys) (added : list RequestData),
    sys_run a acts s = Done s' /\
    pipeline s' = pipeline s ++ map exec_args added /\
    (length added <= requests acts)%nat.
Proof.
  revert s. induction acts as [| act acts IH]; intros s Hopen.
  - exists s, []. simpl. rewrite app_nil_r. split; [done |]. split; [done | lia].
  - destruct (sys_step_done a act s Hopen) as [s1 Hs].
    destruct (queue_line_step a act s s1 Hopen Hs) as (d1 & Hp1 & Hl1).
    destruct (sys_step_channel a act s s1 Hs) as [Hc _].
    rewrite Hopen in Hc.
    destruct (IH s1 Hc) as (s2 & d2 & Hr & Hp2 & Hl2).
    exists s2, (d1 ++ d2). simpl. rewrite Hs, Hr, Hp2, Hp1.
    rewrite map_app, length_app, app_assoc. split; [done |]. split; [done |].
    simpl in Hl1. destruct act; simpl; lia.
Qed.

(** C5: the queue of the program is the channel [New] makes, and in every
    state the program reaches from [New] it has capacity 1000, is open and
    holds at most 1000 records.  The enqueue attempt of [ServeHTTP] appends
    the record at the back, logging nothing, exactly when fewer than 1000
    records are held; when 1000 are held it returns at once, leaves the queue
    as it is and logs the record as discarded.  The drain loop takes the
    record at the front, the oldest, and executes that one; on an empty queue
    it suspends; a worker that is connecting or backing off leaves the queue
    alone.  Over any further schedule of requests and worker steps the line
    of records, those executed followed by those held, only grows at its
    back, by the records accepted, at most one per request, and the capacity
    stays 1000: nothing is reordered, duplicated or lost inside the queue. *)
Theorem dataChan_is_bounded_fifo (a : Analytics) (s : sys)
    (data : RequestData) (r : sink_reply) (acts : list action) :
  reachable a s ->
  let q := dataChan s in
  channel.cap q = 1000%nat /\
  channel.closed q = false /\
  (length (channel.buf q) <= 1000)%nat /\
  (if decide (length (channel.buf q) < 1000)%nat
   then offer data s =
          Done {| clock := clock s;
                  dataChan := {| channel.buf := channel.buf q ++ [data];
                                 channel.cap := 1000;
                                 channel.closed := false |};
                  worker := worker s; sink := sink s; trace := trace s |}
   else length (channel.buf q) = 1000%nat /\
        offer data s =
          Done {| clock := clock s; dataChan := q; worker := worker s;
                  sink := sink s;
                  trace := trace s ++
                    [EvLog "Analytics channel full, discarding data"] |}) /\
  match worker s, channel.buf q with
  | Draining, oldest :: rest =>
      worker_step a r s =
        Done {| clock := clock s;
                dataChan := {| channel.buf := rest; channel.cap := 1000;
                               channel.closed := false |};
                worker := Draining;
                sink := sink s ++ exec_rows oldest r;
                trace := trace s ++ EvExec (exec_args oldest) ::
                  match on_exec r with
                  | Some e => [EvLog ("Failed to insert data: " +:+ sql.text e)]
                  | None => []
                  end |}
  | Draining, [] => worker_step a r s = Blocked
  | _, _ => exists s1 : sys, worker_step a r s = Done s1 /\ dataChan s1 = q
  end /\
  exists (s' : sys) (accepted : list RequestData),
    sys_run a acts s = Done s' /\
    reachable a s' /\
    channel.cap (dataChan s') = 1000%nat /\
    exec_calls (trace s') ++ map exec_args (channel.buf (dataChan s')) =
      (exec_calls (trace s) ++ map exec_args (channel.buf q)) ++
      map exec_args accepted /\
    (length accepted <= requests acts)%nat.
Proof.
  intros Hreach q.
  destruct (reachable_open a s Hreach) as [Hopen Hcap].
  destruct (reachable_inv a s Hreach) as (_ & _ & _ & _ & _ & _ & _ & Hlen).
  fold q in Hopen, Hcap, Hlen. rewrite Hcap in Hlen.
  split; [done |]. split; [done |]. split; [done |]. split; [| split].
  - unfold offer. fold q. case_decide as Hroom.
    + rewrite send_open_room by (try done; lia). by rewrite Hcap.
    + split; [lia |]. by rewrite send_open_full by (try done; lia).
  - destruct (worker s) eqn:Hw.
    + unfold worker_step. rewrite Hw. destruct (connect _ r). by eexists.
    + destruct (channel.buf q) as [| oldest rest] eqn:Hb.
      * unfold worker_step, channel.recv. fold q. by rewrite Hw, Hb, Hopen.
      * rewrite (drain_step a r s oldest rest Hw Hb). unfold drained.
        fold q. by rewrite Hcap, Hopen.
    + unfold worker_step. rewrite Hw. by eexists.
  - destruct (queue_line_run a acts s Hopen) as (s' & added & Hr & Hp & Hl).
    exists s', added. unfold pipeline in Hp.
    pose proof (reachable_run a acts s s' Hreach Hr) as Hreach'.
    destruct (reachable_open a s' Hreach') as [_ Hcap'].
    repeat split; done.
Qed.

Lemma dataChan_is_bounded_fifo_witness :
  reachable demo_analytics demo_sys /\
  channel.cap (dataChan demo_sys) = 1000%nat /\
  offer demo_record demo_sys =
    Done {| clock := 0;
            dataChan := {| channel.buf := [demo_record]; channel.cap := 1000;
                           channel.closed := false |};
            worker := Connecting; sink := [];
            trace := [EvGo "processingWorker"] |} /\
  exists (s' : sys) (accepted : list RequestData),
    sys_run demo_analytics demo_schedule demo_sys = Done s' /\
    exec_calls (trace s') ++ map exec_args (channel.buf (dataChan s')) =
      map exec_args accepted /\
    (length accepted <= 3)%nat.
Proof.
  assert (Hreach : reachable demo_analytics demo_sys)
    by (by apply (reach_new demo_analytics 0 demo_sys)).
  destruct (dataChan_is_bounded_fifo demo_analytics demo_sys demo_record
              reply_ok demo_schedule Hreach)
    as (Hcap & _ & _ & Hoffer & _ & s' & accepted & Hr & _ & _ & Hline & Hlen).
  split; [exact Hreach |]. split; [exact Hcap |]. split; [exact Hoffer |].
  exists s', accepted. split; [exact Hr |]. split; [exact Hline | exact Hlen].
Defined.
